(** * createcsvs: path classification and unit conversion

    A shallow embedding of [categorise_paths] and [convert_units] from
    [createcsvs.py], together with the properties of the two functions.

    Number model.  SVG coordinates are Python floats (and complex numbers
    built from them).  [categorise_paths] only compares and copies them;
    it is modelled over exact rationals [Q].  [convert_units] is given
    twice: over [Q], where statements about computed values are up to
    [Qeq] and hold in exact arithmetic, and over binary64 numbers (module
    [F64]), with the rounding, the overflow and the underflow of the
    doubles the code computes with, for the formula as it is computed and
    for the divisions by zero.  Exceptions are modelled by an explicit
    result type. *)

From Stdlib Require Import List Bool Arith ZArith QArith Qround Qabs Lia Lqa.
From Stdlib Require Import Permutation Sorting.Sorted.
From Stdlib Require Import Ascii.
From Stdlib Require Import Floats.
Import ListNotations.

Open Scope Q_scope.

(** ** Exceptions *)

Inductive exn : Type :=
| ValueError
| AssertionError
| IndexError
| ZeroDivisionError
| OverflowError.

Inductive result (A : Type) : Type :=
| Ok (a : A)
| Raise (e : exn).

Arguments Ok {A} a.
Arguments Raise {A} e.

Definition bind {A B : Type} (c : result A) (k : A -> result B) : result B :=
  match c with
  | Ok a => k a
  | Raise e => Raise e
  end.

Notation "x <- c ;; k" := (bind c (fun x => k))
  (at level 61, c at next level, right associativity).
Notation "' p <- c ;; k" := (bind c (fun x => let p := x in k))
  (at level 61, p pattern, c at next level, right associativity).

(** A list comprehension whose element expression may raise. *)
Fixpoint mapM {A B : Type} (f : A -> result B) (l : list A) : result (list B) :=
  match l with
  | [] => Ok []
  | a :: l' => b <- f a ;; bs <- mapM f l' ;; Ok (b :: bs)
  end.

(** [assert cond] *)
Definition py_assert (cond : bool) : result unit :=
  if cond then Ok tt else Raise AssertionError.

(** [l[i]], with Python's negative indices and [IndexError] out of range. *)
Definition py_index {A : Type} (l : list A) (i : Z) : result A :=
  let n := Z.of_nat (length l) in
  let j := (if i <? 0 then n + i else i)%Z in
  if ((0 <=? j) && (j <? n))%Z then
    match nth_error l (Z.to_nat j) with
    | Some a => Ok a
    | None => Raise IndexError
    end
  else Raise IndexError.

(** [a / b] on floats: division by zero raises. *)
Definition py_div (a b : Q) : result Q :=
  if Qeq_bool b 0 then Raise ZeroDivisionError else Ok (a / b).

(** ** Numbers *)

Definition Qltb (a b : Q) : bool := negb (Qle_bool b a).

(** [round(q)] with one argument: nearest integer, ties to the even one. *)
Definition py_round (q : Q) : Z :=
  let f := Qfloor q in
  match Qcompare (q - inject_Z f) (1 # 2) with
  | Lt => f
  | Gt => (f + 1)%Z
  | Eq => if Z.even f then f else (f + 1)%Z
  end.

(** [sorted(l)] and [sorted(l, reverse=True)]: both are stable, elements
    that compare equal keep their order in [l]. *)
Fixpoint insert_by (lt : Q -> Q -> bool) (x : Q) (l : list Q) : list Q :=
  match l with
  | [] => [x]
  | y :: l' => if lt y x then y :: insert_by lt x l' else x :: l
  end.

Definition sorted (l : list Q) : list Q :=
  fold_right (insert_by Qltb) [] l.

Definition sorted_reverse (l : list Q) : list Q :=
  fold_right (insert_by (fun a b => Qltb b a)) [] l.

(** Complex numbers, as svgpathtools uses them for points. *)
Record complex : Type := Complex { real : Q; imag : Q }.

Definition csub (a b : complex) : complex :=
  Complex (real a - real b) (imag a - imag b).

(** Square of the modulus. *)
Definition abs2 (z : complex) : Q := real z * real z + imag z * imag z.

Module np.

Definition rtol : Q := 1 # 100000.
Definition atol : Q := 1 # 100000000.

(** [np.isclose(a, b)] with the default tolerances:
    [|a - b| <= atol + rtol * |b|].  With [D = |a - b|^2] and
    [B = |b|^2] this is [D - atol^2 - rtol^2 B <= 2 atol rtol sqrt B],
    decided here without a square root.  The tolerances are the exact
    decimals and the test is exact, where numpy rounds; the statements
    about gaps below do not depend on which pairs the test accepts. *)
Definition isclose (a b : complex) : bool :=
  let D := abs2 (csub a b) in
  let B := abs2 b in
  let lhs := D - atol * atol - rtol * rtol * B in
  Qle_bool lhs 0 || Qle_bool (lhs * lhs) (4 * atol * atol * rtol * rtol * B).

End np.

(** ** Geometry as delivered by svg2paths *)

Record Segment : Type := mkSegment { start : complex; end_ : complex }.

(** A path is its list of segments; [len(path)] is [length]. *)
Definition Path : Type := list Segment.

(** [path.start] is the start of the first segment. *)
Definition path_start (path : Path) : result complex :=
  s <- py_index path 0 ;; Ok (start s).

(** [path.end] is the end of the last segment. *)
Definition path_end (path : Path) : result complex :=
  s <- py_index path (-1) ;; Ok (end_ s).

(** ** categorise_paths *)

(** [len(path) == 1] and [len(path) > 1], the two comprehension filters. *)
Definition is_single (path : Path) : bool := (length path =? 1)%nat.
Definition is_multi (path : Path) : bool := (1 <? length path)%nat.

(** [sorted([path.start.imag for path in paths if len(path) == 1])] *)
Definition y_candidates (paths : list Path) : result (list Q) :=
  ys <- mapM (fun path => s <- path_start path ;; Ok (imag s))
             (filter is_single paths) ;;
  Ok (sorted ys).

(** The body of the loop over [zip(trend[:-1], trend[1:])]. *)
Definition mid_step (mid_points : list complex) (pr : Segment * Segment)
  : list complex :=
  let '(end_seg, next_start_seg) := pr in
  let mid_points :=
    if negb (np.isclose (end_ end_seg) (start next_start_seg))
    then mid_points ++ [end_ end_seg]
    else mid_points in
  mid_points ++ [start next_start_seg].

Definition trend_pairs (trend : Path) : list (Segment * Segment) :=
  combine (removelast trend) (tl trend).

Definition mid_points_of (trend : Path) : list complex :=
  fold_left mid_step (trend_pairs trend) [].

Definition trend_points (trend : Path) : result (list complex) :=
  let mid_points := mid_points_of trend in
  first <- py_index trend 0 ;;
  last <- py_index trend (-1) ;;
  Ok ([start first] ++ mid_points ++ [end_ last]).

Definition categorise_paths (paths : list Path)
  : result ((Q * Q) * list Q * list complex) :=
  y_lines <- y_candidates paths ;;
  y_lines <- (if (length y_lines =? 5)%nat then
                y0 <- py_index y_lines 0 ;;
                y2 <- py_index y_lines 2 ;;
                y4 <- py_index y_lines (-1) ;;
                Ok [y0; y2; y4]
              else Ok y_lines) ;;
  if (length y_lines =? 3)%nat then
    xlims <- mapM (fun path =>
                     s <- path_start path ;;
                     e <- path_end path ;;
                     Ok (real s, real e))
                  (filter is_single paths) ;;
    xlim <- py_index xlims 1 ;;
    let trends := filter is_multi paths in
    _ <- py_assert (length y_lines =? 3)%nat ;;
    _ <- py_assert (length trends =? 1)%nat ;;
    trend <- py_index trends 0 ;;
    points <- trend_points trend ;;
    Ok (xlim, sorted_reverse y_lines, points)
  else Raise ValueError.

(** ** convert_units *)

(** [ymax, ymid, ymin = tuple(line_y)]: unpacking anything but three
    values raises [ValueError]. *)
Definition unpack3 (line_y : list Q) : result (Q * Q * Q) :=
  match line_y with
  | [a; b; c] => Ok (a, b, c)
  | _ => Raise ValueError
  end.

Definition y_scale_of (ymax ymid ymin : Q) : Q :=
  (Qabs (ymax - ymid) + Qabs (ymid - ymin)) / 2.

(** One iteration of the loop over [trend]. *)
Definition convert_point (xmin x_scale ymid y_scale yspan xspan : Q)
           (point : complex) : result (Z * Q) :=
  let x := real point in
  let y := imag point in
  qx <- py_div (x - xmin) x_scale ;;
  let x_out := (1 + py_round (xspan * qx))%Z in
  qy <- py_div (ymid - y) y_scale ;;
  let y_out := yspan * qy in
  Ok (x_out, y_out).

Fixpoint convert_loop (xmin x_scale ymid y_scale yspan xspan : Q)
         (trend : list complex) (trend_plot_coords : list (Z * Q))
  : result (list (Z * Q)) :=
  match trend with
  | [] => Ok trend_plot_coords
  | point :: rest =>
      out <- convert_point xmin x_scale ymid y_scale yspan xspan point ;;
      convert_loop xmin x_scale ymid y_scale yspan xspan rest
                   (trend_plot_coords ++ [out])
  end.

Definition convert_units (trend : list complex) (line_y : list Q)
           (xlim : Q * Q) (yspan xspan : Q) : result (list (Z * Q)) :=
  let '(xmin, xmax) := xlim in
  let x_scale := xmax - xmin in
  '(ymax, ymid, ymin) <- unpack3 line_y ;;
  let y_scale := y_scale_of ymax ymid ymin in
  convert_loop xmin x_scale ymid y_scale yspan xspan trend [].

(** ** convert_units on binary64 numbers

    The same function with the numbers the code has: every operation is
    an IEEE 754 double operation, in the order of the source, and
    [round] raises on a NaN or an infinity.  [yspan] and [xspan], the
    integers 80 and 42 in the call of [main], enter the products as
    doubles. *)

Module F64.

(** A point with double coordinates. *)
Record complex : Type := Complex { real : float; imag : float }.

(** A double that is neither a NaN nor an infinity. *)
Definition finite (x : float) : bool :=
  match Prim2SF x with
  | S754_zero _ | S754_finite _ _ _ => true
  | S754_infinity _ | S754_nan => false
  end.

(** [a / b] on floats: a zero divisor, of either sign, raises. *)
Definition py_div (a b : float) : result float :=
  if (b =? 0)%float then Raise ZeroDivisionError else Ok (a / b)%float.

(** The integer nearest to [m * 2^e], ties to the even one. *)
Definition round_half_even (m : positive) (e : Z) : Z :=
  if (0 <=? e)%Z then (Z.pos m * 2 ^ e)%Z
  else
    let d := (2 ^ (- e))%Z in
    let q := (Z.pos m / d)%Z in
    let r := (Z.pos m mod d)%Z in
    match (2 * r ?= d)%Z with
    | Lt => q
    | Gt => (q + 1)%Z
    | Eq => if Z.even q then q else (q + 1)%Z
    end.

(** [round(x)] of a float: [ValueError] on a NaN, [OverflowError] on an
    infinity, otherwise the exact nearest integer, ties to even. *)
Definition py_round (x : float) : result Z :=
  match Prim2SF x with
  | S754_zero _ => Ok 0%Z
  | S754_infinity _ => Raise OverflowError
  | S754_nan => Raise ValueError
  | S754_finite s m e => Ok (cond_Zopp s (round_half_even m e))
  end.

Definition unpack3 (line_y : list float) : result (float * float * float) :=
  match line_y with
  | [a; b; c] => Ok (a, b, c)
  | _ => Raise ValueError
  end.

Definition y_scale_of (ymax ymid ymin : float) : float :=
  ((abs (ymax - ymid) + abs (ymid - ymin)) / 2)%float.

(** One iteration of the loop over [trend]. *)
Definition convert_point (xmin x_scale ymid y_scale yspan xspan : float)
           (point : complex) : result (Z * float) :=
  let x := real point in
  let y := imag point in
  qx <- py_div (x - xmin)%float x_scale ;;
  r <- py_round (xspan * qx)%float ;;
  let x_out := (1 + r)%Z in
  qy <- py_div (ymid - y)%float y_scale ;;
  let y_out := (yspan * qy)%float in
  Ok (x_out, y_out).

Fixpoint convert_loop (xmin x_scale ymid y_scale yspan xspan : float)
         (trend : list complex) (trend_plot_coords : list (Z * float))
  : result (list (Z * float)) :=
  match trend with
  | [] => Ok trend_plot_coords
  | point :: rest =>
      out <- convert_point xmin x_scale ymid y_scale yspan xspan point ;;
      convert_loop xmin x_scale ymid y_scale yspan xspan rest
                   (trend_plot_coords ++ [out])
  end.

Definition convert_units (trend : list complex) (line_y : list float)
           (xlim : float * float) (yspan xspan : float)
  : result (list (Z * float)) :=
  let '(xmin, xmax) := xlim in
  let x_scale := (xmax - xmin)%float in
  '(ymax, ymid, ymin) <- unpack3 line_y ;;
  let y_scale := y_scale_of ymax ymid ymin in
  convert_loop xmin x_scale ymid y_scale yspan xspan trend [].

(** Following the specification's words, in double arithmetic from left
    to right: [1 + round(x_span * (x - x_min) / (x_max - x_min))] and
    [y_span * (y_mid - y) / y_scale]. *)
Definition day_index_spec (x_span x_min x_max x : float) : result Z :=
  r <- py_round (x_span * (x - x_min) / (x_max - x_min))%float ;;
  Ok (1 + r)%Z.

Definition value_spec (y_span y_top y_mid y_bottom y : float) : float :=
  (y_span * (y_mid - y) / y_scale_of y_top y_mid y_bottom)%float.

End F64.

(** ** Vocabulary of the statements *)

(** The start ordinates and the x extents of the one-segment paths, in
    the order of [paths]. *)
Definition candidate_ys (paths : list Path) : list Q :=
  flat_map (fun path => match path with
                        | [s] => [imag (start s)]
                        | _ => []
                        end) paths.

Definition single_xlims (paths : list Path) : list (Q * Q) :=
  flat_map (fun path => match path with
                        | [s] => [(real (start s), real (end_ s))]
                        | _ => []
                        end) paths.

(** The candidates kept once five of them are cut down to three. *)
Definition reduced (ys : list Q) : list Q :=
  match ys with
  | [a; _; c; _; e] => [a; c; e]
  | _ => ys
  end.

(** A gap: consecutive segments whose meeting points are not close. *)
Definition is_gap (pr : Segment * Segment) : bool :=
  negb (np.isclose (end_ (fst pr)) (start (snd pr))).

Definition count_gaps (trend : Path) : nat :=
  length (filter is_gap (trend_pairs trend)).

(** The supported layout: three or five one-segment paths and exactly one
    path of several segments. *)
Definition conforming (paths : list Path) : Prop :=
  (length (filter is_single paths) = 3 \/ length (filter is_single paths) = 5)%nat
  /\ length (filter is_multi paths) = 1%nat.

(** The error kind of the specification: both ways [categorise_paths]
    rejects a chart. *)
Definition ShapeError (e : exn) : Prop :=
  e = ValueError \/ e = AssertionError.



(** Following the specification's words: the day index and the value of a
    point [(x, y)], with the products taken before the divisions. *)
Definition y_scale_spec (y_top y_mid y_bottom : Q) : Q :=
  (Qabs (y_top - y_mid) + Qabs (y_mid - y_bottom)) / 2.

Definition day_index_spec (x_span x_min x_max x : Q) : Z :=
  (1 + py_round (x_span * (x - x_min) / (x_max - x_min)))%Z.

Definition value_spec (y_span y_top y_mid y_bottom y : Q) : Q :=
  y_span * (y_mid - y) / y_scale_spec y_top y_mid y_bottom.

(** ** Sample charts *)

Definition line (x0 y0 x1 y1 : Q) : Segment :=
  mkSegment (Complex x0 y0) (Complex x1 y1).

Definition ref_top : Path := [line 0 1 10 1].
Definition ref_mid : Path := [line 0 0 10 0].
Definition ref_bottom : Path := [line 0 (-1) 10 (-1)].

(** Two segments that do not meet: (1,1) is followed by (2,1). *)
Definition gap_trend : Path := [line 0 0 1 1; line 2 1 3 0].
Definition gap_chart : list Path := [ref_top; gap_trend; ref_mid; ref_bottom].

(** The same number of segments, meeting at (1,1). *)
Definition nogap_trend : Path := [line 0 0 1 1; line 1 1 3 0].
Definition nogap_chart : list Path := [ref_top; nogap_trend; ref_mid; ref_bottom].


(** Reference lines of three different extents. *)
Definition uneven_chart : list Path :=
  [[line 0 1 10 1]; [line 2 0 8 0]; nogap_trend; [line 1 (-1) 9 (-1)]].

(** Five one-segment paths, out of order. *)
Definition five_chart : list Path :=
  [[line 0 5 10 5]; [line 0 1 10 1]; nogap_trend; [line 0 3 10 3];
   [line 0 2 10 2]; [line 0 4 10 4]].

(** ** main: the loop body up to the data frame

    Of [main], the steps that work on the paths of one file: the call of
    [categorise_paths], the second sort of the reference lines, the call
    of [convert_units] with [yspan=80] and [xspan=42], and the unpacking
    of the converted points into two columns, in exact arithmetic.
    Reading the file, before, and building and writing the data frame,
    after, are not modelled. *)

(** [xs, ys = tuple(zip( *trend_converted))]: with no row the zip is empty
    and the unpacking raises [ValueError]. *)
Definition unzip_rows (trend_converted : list (Z * Q))
  : result (list Z * list Q) :=
  match trend_converted with
  | [] => Raise ValueError
  | _ :: _ => Ok (List.split trend_converted)
  end.

Definition extract (paths : list Path) : result (list Z * list Q) :=
  '(xlim, y_lines, trend) <- categorise_paths paths ;;
  let y_lines := sorted_reverse y_lines in
  trend_converted <- convert_units trend y_lines xlim 80 42 ;;
  unzip_rows trend_converted.

(** [try: ... except ValueError as err: ...]: a [ValueError] is printed
    and the loop goes on to the next file; any other exception leaves
    [main]. *)
Inductive outcome (A : Type) : Type :=
| Extracted (a : A)
| Skipped
| Propagated (e : exn).

Arguments Extracted {A} a.
Arguments Skipped {A}.
Arguments Propagated {A} e.

Definition try_file {A : Type} (body : result A) : outcome A :=
  match body with
  | Ok a => Extracted a
  | Raise ValueError => Skipped
  | Raise e => Propagated e
  end.

(** [s.split(sep)] for a separator of one character: never empty, one
    more part than there are separators. *)
Fixpoint str_split (sep : ascii) (s : list ascii) : list (list ascii) :=
  match s with
  | [] => [[]]
  | c :: s' =>
      if Ascii.eqb c sep then [] :: str_split sep s'
      else match str_split sep s' with
           | [] => [[c]]
           | w :: ws => (c :: w) :: ws
           end
  end.

Definition slash : ascii := "/"%char.
Definition dot : ascii := "."%char.
Definition dash : ascii := "-"%char.

(** [input_folder.split("/")[-1]] *)
Definition location (input_folder : list ascii) : result (list ascii) :=
  py_index (str_split slash input_folder) (-1).

(** [file.split(".")[0]] *)
Definition graph_num (file : list ascii) : result (list ascii) :=
  py_index (str_split dot file) 0.

(** [f"{output_folder}/{input_folder.split('/')[-1]}-{file.split('.')[0]}"] *)
Definition filename (output_folder input_folder file : list ascii)
  : result (list ascii) :=
  loc <- location input_folder ;;
  num <- graph_num file ;;
  Ok (output_folder ++ [slash] ++ loc ++ [dash] ++ num).

(** ** Further vocabulary *)

(** The points of a trend, segment by segment: after segment [a], the end
    of [a] if the next segment does not start there, then the start of
    the next segment; after the last segment, its end. *)
Fixpoint walk (a : Segment) (rest : list Segment) : list complex :=
  match rest with
  | [] => [end_ a]
  | b :: t =>
      (if is_gap (a, b) then [end_ a] else []) ++ start b :: walk b t
  end.

(** [l] is [l'] with some elements left out. *)
Inductive subseq {A : Type} : list A -> list A -> Prop :=
| subseq_nil : subseq [] []
| subseq_keep x l l' : subseq l l' -> subseq (x :: l) (x :: l')
| subseq_skip x l l' : subseq l l' -> subseq l (x :: l').

(** [sep.join(parts)] for a separator of one character. *)
Fixpoint str_join (sep : ascii) (parts : list (list ascii)) : list ascii :=
  match parts with
  | [] => []
  | [w] => w
  | w :: ws => w ++ sep :: str_join sep ws
  end.

(** A point moved by [(dx, dy)]. *)
Definition translate (dx dy : Q) (point : complex) : complex :=
  Complex (real point + dx) (imag point + dy).

(** A list in descending order: every element is at least those after it. *)
Definition descending (l : list Q) : Prop :=
  StronglySorted (fun a b => b <= a) l.

Definition all_equal (l : list Q) : Prop :=
  forall x y, In x l -> In y l -> x == y.

(** The charts on which [convert_units] divides by zero: the second
    one-segment path has no horizontal extent, or the reference lines kept
    all have the same ordinate. *)
Definition degenerate (paths : list Path) : Prop :=
  (exists s, nth_error (filter is_single paths) 1 = Some [s]
             /\ real (start s) == real (end_ s))
  \/ all_equal (reduced (sorted (candidate_ys paths))).

(** ** Indexing and comprehensions *)

Lemma py_index_0_cons {A : Type} (a : A) (l : list A) :
  py_index (a :: l) 0 = Ok a.
Proof.
  unfold py_index. cbn [length].
  replace (0 <? 0)%Z with false by reflexivity.
  replace (0 <=? 0)%Z with true by reflexivity.
  replace (0 <? Z.of_nat (S (length l)))%Z with true
    by (symmetry; apply Z.ltb_lt; lia).
  reflexivity.
Qed.

Lemma py_index_last_app {A : Type} (l : list A) (a : A) :
  py_index (l ++ [a]) (-1) = Ok a.
Proof.
  unfold py_index. rewrite length_app. cbn [length].
  replace (-1 <? 0)%Z with true by reflexivity.
  set (j := (Z.of_nat (length l + 1) + -1)%Z).
  assert (Hj : j = Z.of_nat (length l)) by (unfold j; lia).
  rewrite Hj.
  replace (0 <=? Z.of_nat (length l))%Z with true
    by (symmetry; apply Z.leb_le; lia).
  replace (Z.of_nat (length l) <? Z.of_nat (length l + 1))%Z with true
    by (symmetry; apply Z.ltb_lt; lia).
  rewrite Nat2Z.id. cbn [andb].
  rewrite nth_error_app2 by lia. rewrite Nat.sub_diag. reflexivity.
Qed.

Lemma py_index_last {A : Type} (l : list A) (d : A) :
  l <> [] -> py_index l (-1) = Ok (last l d).
Proof.
  intros Hl. rewrite (app_removelast_last d Hl) at 1.
  apply py_index_last_app.
Qed.

Lemma mapM_single_imag (paths : list Path) :
  mapM (fun path => s <- path_start path ;; Ok (imag s))
       (filter is_single paths) = Ok (candidate_ys paths).
Proof.
  induction paths as [|p paths IH]; [reflexivity|].
  destruct p as [|s [|s' t]]; cbn [filter is_single length Nat.eqb candidate_ys flat_map];
    try exact IH.
  cbn [mapM app]. unfold path_start at 1. rewrite py_index_0_cons.
  cbn [bind]. rewrite IH. reflexivity.
Qed.

Lemma mapM_single_xlim (paths : list Path) :
  mapM (fun path => s <- path_start path ;; e <- path_end path ;;
                    Ok (real s, real e))
       (filter is_single paths) = Ok (single_xlims paths).
Proof.
  induction paths as [|p paths IH]; [reflexivity|].
  destruct p as [|s [|s' t]]; cbn [filter is_single length Nat.eqb single_xlims flat_map];
    try exact IH.
  cbn [mapM app]. unfold path_start at 1, path_end at 1.
  rewrite py_index_0_cons. change [s] with ([] ++ [s]) at 1.
  rewrite py_index_last_app. cbn [bind]. rewrite IH. reflexivity.
Qed.

Lemma candidate_ys_length (paths : list Path) :
  length (candidate_ys paths) = length (filter is_single paths).
Proof.
  induction paths as [|p paths IH]; [reflexivity|].
  destruct p as [|s [|s' t]]; cbn; auto.
Qed.

Lemma single_xlims_length (paths : list Path) :
  length (single_xlims paths) = length (filter is_single paths).
Proof.
  induction paths as [|p paths IH]; [reflexivity|].
  destruct p as [|s [|s' t]]; cbn; auto.
Qed.

Lemma single_xlims_nth (paths : list Path) (i : nat) (xl : Q * Q) :
  nth_error (single_xlims paths) i = Some xl <->
  exists s, nth_error (filter is_single paths) i = Some [s]
            /\ xl = (real (start s), real (end_ s)).
Proof.
  revert i. induction paths as [|p paths IH]; intros i.
  - cbn. destruct i; cbn; split; [discriminate| intros (s & H & _); discriminate
                                 | discriminate | intros (s & H & _); discriminate].
  - destruct p as [|s [|s' t]];
      cbn [filter is_single length Nat.eqb single_xlims flat_map app];
      try apply IH.
    destruct i as [|i]; cbn [nth_error].
    + split.
      * intros [= <-]. exists s. split; reflexivity.
      * intros (s0 & [= <-] & ->). reflexivity.
    + apply IH.
Qed.

(** ** Sorting *)

Lemma insert_by_length lt x l : length (insert_by lt x l) = S (length l).
Proof.
  induction l as [|y l IH]; cbn; [reflexivity|].
  destruct (lt y x); cbn; auto.
Qed.

Lemma sorted_length l : length (sorted l) = length l.
Proof.
  induction l as [|x l IH]; cbn; [reflexivity|].
  rewrite insert_by_length. auto.
Qed.

Lemma sorted_reverse_length l : length (sorted_reverse l) = length l.
Proof.
  induction l as [|x l IH]; cbn; [reflexivity|].
  rewrite insert_by_length. auto.
Qed.

Lemma insert_by_perm lt x l : Permutation (x :: l) (insert_by lt x l).
Proof.
  induction l as [|y l IH]; cbn; [reflexivity|].
  destruct (lt y x); [|reflexivity].
  rewrite perm_swap. constructor. exact IH.
Qed.

Lemma sorted_perm l : Permutation l (sorted l).
Proof.
  induction l as [|x l IH]; cbn; [constructor|].
  rewrite <- insert_by_perm. constructor. exact IH.
Qed.

Lemma sorted_reverse_perm l : Permutation l (sorted_reverse l).
Proof.
  induction l as [|x l IH]; cbn; [constructor|].
  rewrite <- insert_by_perm. constructor. exact IH.
Qed.

Lemma Qltb_lt a b : Qltb a b = true <-> a < b.
Proof.
  unfold Qltb. rewrite negb_true_iff. split.
  - intros H. apply Qnot_le_lt. intros Hle.
    apply Qle_bool_iff in Hle. congruence.
  - intros H. destruct (Qle_bool b a) eqn:E; [|reflexivity].
    apply Qle_bool_iff in E. exfalso. exact (Qlt_not_le _ _ H E).
Qed.

Lemma Qltb_ge a b : Qltb a b = false <-> b <= a.
Proof.
  unfold Qltb. rewrite negb_false_iff. apply Qle_bool_iff.
Qed.

Lemma insert_by_Qltb_sorted x l :
  StronglySorted Qle l -> StronglySorted Qle (insert_by Qltb x l).
Proof.
  induction 1 as [|y l Hs IH Hy]; cbn.
  - repeat constructor.
  - destruct (Qltb y x) eqn:E.
    + constructor; [exact IH|].
      apply Qltb_lt in E.
      rewrite <- insert_by_perm. constructor; [apply Qlt_le_weak; exact E|exact Hy].
    + apply Qltb_ge in E. constructor.
      * constructor; assumption.
      * constructor; [exact E|].
        eapply Forall_impl; [|exact Hy]. intros z Hz. eapply Qle_trans; eassumption.
Qed.

Lemma sorted_StronglySorted l : StronglySorted Qle (sorted l).
Proof.
  induction l as [|x l IH]; cbn; [constructor|].
  apply insert_by_Qltb_sorted. exact IH.
Qed.

(** ** The trend points *)

Lemma py_index_nat {A : Type} (l : list A) (i : nat) (a : A) :
  nth_error l i = Some a -> py_index l (Z.of_nat i) = Ok a.
Proof.
  intros H. unfold py_index.
  assert (Hi : (i < length l)%nat) by (apply nth_error_Some; congruence).
  replace (Z.of_nat i <? 0)%Z with false by (symmetry; apply Z.ltb_ge; lia).
  replace (0 <=? Z.of_nat i)%Z with true by (symmetry; apply Z.leb_le; lia).
  replace (Z.of_nat i <? Z.of_nat (length l))%Z with true
    by (symmetry; apply Z.ltb_lt; lia).
  rewrite Nat2Z.id, H. reflexivity.
Qed.

Lemma mid_step_length acc pr :
  length (mid_step acc pr)
  = (length acc + 1 + (if is_gap pr then 1 else 0))%nat.
Proof.
  destruct pr as [a b]. unfold mid_step, is_gap. cbn [fst snd].
  destruct (negb (np.isclose (end_ a) (start b)));
    repeat rewrite length_app; cbn [length]; lia.
Qed.

Lemma fold_mid_step_length prs acc :
  length (fold_left mid_step prs acc)
  = (length acc + length prs + length (filter is_gap prs))%nat.
Proof.
  revert acc. induction prs as [|pr prs IH]; intros acc; cbn [fold_left filter length].
  - lia.
  - rewrite IH, mid_step_length. destruct (is_gap pr); cbn [length]; lia.
Qed.

Lemma trend_pairs_length (trend : Path) :
  length (trend_pairs trend) = (length trend - 1)%nat.
Proof.
  unfold trend_pairs. rewrite length_combine.
  destruct trend as [|s t]; [reflexivity|].
  cbn [tl]. 
  assert (H : length (removelast (s :: t)) = length t).
  { clear. revert s. induction t as [|s' t IH]; intros s; [reflexivity|].
    change (removelast (s :: s' :: t)) with (s :: removelast (s' :: t)).
    cbn [length]. rewrite IH. reflexivity. }
  rewrite H. cbn [length]. lia.
Qed.

Lemma mid_points_of_length (trend : Path) :
  length (mid_points_of trend) = (length trend - 1 + count_gaps trend)%nat.
Proof.
  unfold mid_points_of, count_gaps.
  rewrite fold_mid_step_length, trend_pairs_length. cbn [length]. lia.
Qed.

Lemma trend_points_cons (s : Segment) (t : list Segment) :
  trend_points (s :: t)
  = Ok (start s :: mid_points_of (s :: t) ++ [end_ (last (s :: t) s)]).
Proof.
  unfold trend_points. rewrite py_index_0_cons.
  rewrite (py_index_last (s :: t) s) by discriminate. reflexivity.
Qed.

(** ** The three outcomes of categorise_paths *)

Lemma reduce_step (ys : list Q) :
  (if (length ys =? 5)%nat then
     y0 <- py_index ys 0 ;; y2 <- py_index ys 2 ;; y4 <- py_index ys (-1) ;;
     Ok [y0; y2; y4]
   else Ok ys) = Ok (reduced ys).
Proof.
  destruct ys as [|a [|b [|c [|d [|e [|f t]]]]]]; reflexivity.
Qed.

Lemma reduced_length (ys : list Q) :
  length (reduced ys) = 3%nat <-> (length ys = 3 \/ length ys = 5)%nat.
Proof.
  destruct ys as [|a [|b [|c [|d [|e [|f t]]]]]]; cbn; lia.
Qed.

Lemma categorise_paths_eq (paths : list Path) :
  categorise_paths paths =
  let y_lines := reduced (sorted (candidate_ys paths)) in
  if (length y_lines =? 3)%nat then
    xlim <- py_index (single_xlims paths) 1 ;;
    _ <- py_assert (length (filter is_multi paths) =? 1)%nat ;;
    trend <- py_index (filter is_multi paths) 0 ;;
    points <- trend_points trend ;;
    Ok (xlim, sorted_reverse y_lines, points)
  else Raise ValueError.
Proof.
  unfold categorise_paths, y_candidates.
  rewrite mapM_single_imag. cbn [bind].
  rewrite reduce_step. cbn [bind]. cbv zeta.
  destruct (length (reduced (sorted (candidate_ys paths))) =? 3)%nat eqn:E;
    [|reflexivity].
  rewrite mapM_single_xlim. cbn [bind].
  destruct (py_index (single_xlims paths) 1); reflexivity.
Qed.

Lemma singles_reduced (paths : list Path) :
  length (reduced (sorted (candidate_ys paths))) = 3%nat <->
  (length (filter is_single paths) = 3 \/ length (filter is_single paths) = 5)%nat.
Proof.
  rewrite reduced_length, sorted_length, candidate_ys_length. reflexivity.
Qed.

Lemma categorise_paths_ValueError (paths : list Path) :
  ~ (length (filter is_single paths) = 3 \/ length (filter is_single paths) = 5)%nat ->
  categorise_paths paths = Raise ValueError.
Proof.
  intros H. rewrite categorise_paths_eq. cbv zeta.
  destruct (length (reduced (sorted (candidate_ys paths))) =? 3)%nat eqn:E;
    [|reflexivity].
  apply Nat.eqb_eq in E. apply singles_reduced in E. contradiction.
Qed.

Lemma second_xlim (paths : list Path) :
  (length (filter is_single paths) = 3 \/ length (filter is_single paths) = 5)%nat ->
  exists s, nth_error (filter is_single paths) 1 = Some [s]
            /\ py_index (single_xlims paths) 1
               = Ok (real (start s), real (end_ s)).
Proof.
  intros H.
  destruct (nth_error (single_xlims paths) 1) as [xl|] eqn:E.
  - pose proof (proj1 (single_xlims_nth paths 1 xl) E) as (s & Hs & ->).
    exists s. split; [exact Hs|].
    apply (py_index_nat (single_xlims paths) 1). exact E.
  - apply nth_error_None in E. rewrite single_xlims_length in E. lia.
Qed.

Lemma categorise_paths_AssertionError (paths : list Path) :
  (length (filter is_single paths) = 3 \/ length (filter is_single paths) = 5)%nat ->
  length (filter is_multi paths) <> 1%nat ->
  categorise_paths paths = Raise AssertionError.
Proof.
  intros H3 H1. rewrite categorise_paths_eq. cbv zeta.
  rewrite (proj2 (Nat.eqb_eq _ _) (proj2 (singles_reduced paths) H3)).
  destruct (second_xlim paths H3) as (s & _ & ->). cbn [bind].
  rewrite (proj2 (Nat.eqb_neq _ _) H1). reflexivity.
Qed.

Lemma is_multi_cons (trend : Path) :
  is_multi trend = true -> exists s s' t, trend = s :: s' :: t.
Proof.
  destruct trend as [|s [|s' t]]; cbn; try discriminate.
  intros _. eauto.
Qed.

Lemma categorise_paths_Ok (paths : list Path) (trend : Path) :
  (length (filter is_single paths) = 3 \/ length (filter is_single paths) = 5)%nat ->
  filter is_multi paths = [trend] ->
  exists s s0 t,
    nth_error (filter is_single paths) 1 = Some [s] /\ trend = s0 :: t /\
    categorise_paths paths
    = Ok ((real (start s), real (end_ s)),
          sorted_reverse (reduced (sorted (candidate_ys paths))),
          start s0 :: mid_points_of trend ++ [end_ (last trend s0)]).
Proof.
  intros H3 H1.
  assert (Hm : is_multi trend = true).
  { assert (Hin : In trend (filter is_multi paths)) by (rewrite H1; left; reflexivity).
    apply filter_In in Hin. tauto. }
  destruct (is_multi_cons trend Hm) as (s0 & s1 & t & ->).
  destruct (second_xlim paths H3) as (s & Hs & Hx).
  exists s, s0, (s1 :: t). split; [exact Hs|]. split; [reflexivity|].
  rewrite categorise_paths_eq. cbv zeta.
  rewrite (proj2 (Nat.eqb_eq _ _) (proj2 (singles_reduced paths) H3)).
  rewrite Hx, H1. cbn [bind length Nat.eqb py_assert].
  rewrite py_index_0_cons. cbn [bind].
  rewrite trend_points_cons. reflexivity.
Qed.

(** ** Properties of categorise_paths *)

Lemma conforming_trend (paths : list Path) :
  conforming paths -> exists trend, filter is_multi paths = [trend].
Proof.
  intros [_ H1]. destruct (filter is_multi paths) as [|trend [|p l]];
    try discriminate. eauto.
Qed.

(** C1 (as amended): on a chart of the supported layout the trend points
    number [segments + 1 + gaps]: every gap adds one point, the end of the
    segment before it.  Without gaps there are [segments + 1] points, and
    with one gap [segments + 2]. *)
Theorem trend_points_length (paths : list Path) :
  conforming paths ->
  exists trend xlim y_lines points,
    filter is_multi paths = [trend] /\
    categorise_paths paths = Ok (xlim, y_lines, points) /\
    length points = (length trend + 1 + count_gaps trend)%nat /\
    (count_gaps trend = 0%nat -> length points = (length trend + 1)%nat) /\
    (count_gaps trend = 1%nat -> length points = (length trend + 2)%nat).
Proof.
  intros Hc. destruct (conforming_trend paths Hc) as (trend & Ht).
  destruct Hc as [H3 _].
  destruct (categorise_paths_Ok paths trend H3 Ht) as (s & s0 & t & _ & Htr & Hok).
  exists trend. eexists. eexists. eexists.
  split; [exact Ht|]. split; [exact Hok|].
  assert (Hlen : length (start s0 :: mid_points_of trend ++ [end_ (last trend s0)])
                 = (length trend + 1 + count_gaps trend)%nat).
  { cbn [length]. rewrite length_app, mid_points_of_length. subst trend.
    cbn [length]. lia. }
  split; [exact Hlen|]. split; intros Hg; rewrite Hlen, Hg; lia.
Qed.

Lemma trend_points_length_witness :
  conforming gap_chart /\
  exists trend xlim y_lines points,
    filter is_multi gap_chart = [trend] /\
    categorise_paths gap_chart = Ok (xlim, y_lines, points) /\
    length points = (length trend + 1 + count_gaps trend)%nat /\
    (count_gaps trend = 0%nat -> length points = (length trend + 1)%nat) /\
    (count_gaps trend = 1%nat -> length points = (length trend + 2)%nat).
Proof.
  assert (Hc : conforming gap_chart) by (split; [left|]; reflexivity).
  split; [exact Hc|]. exact (trend_points_length gap_chart Hc).
Defined.

(** C1, as stated, fails: the two-segment trend of [gap_chart] has one
    gap and yields 4 points, not [2 + 1 + 2 * 1 = 5]; the chart without a
    gap and with as many segments yields 3 points, so the gap adds one
    point, not two. *)
Lemma trend_points_length_counterexample :
  exists xlim y_lines points points',
    categorise_paths gap_chart = Ok (xlim, y_lines, points) /\
    categorise_paths nogap_chart = Ok (xlim, y_lines, points') /\
    filter is_multi gap_chart = [gap_trend] /\
    filter is_multi nogap_chart = [nogap_trend] /\
    length gap_trend = length nogap_trend /\
    count_gaps gap_trend = 1%nat /\ count_gaps nogap_trend = 0%nat /\
    length points = 4%nat /\ length points' = 3%nat /\
    length points <> (length gap_trend + 1 + 2 * count_gaps gap_trend)%nat /\
    length points <> (length points' + 2)%nat.
Proof.
  eexists. eexists. eexists. eexists.
  split; [vm_compute; reflexivity|].
  split; [vm_compute; reflexivity|].
  repeat split; try reflexivity; vm_compute; discriminate.
Qed.

Lemma categorise_paths_cases (paths : list Path) :
  let singles := length (filter is_single paths) in
  let trends := length (filter is_multi paths) in
  (~ (singles = 3 \/ singles = 5)%nat
   /\ categorise_paths paths = Raise ValueError)
  \/ ((singles = 3 \/ singles = 5)%nat /\ trends <> 1%nat
      /\ categorise_paths paths = Raise AssertionError)
  \/ ((singles = 3 \/ singles = 5)%nat /\ trends = 1%nat
      /\ exists r, categorise_paths paths = Ok r).
Proof.
  intros singles trends.
  assert (Hd : (singles = 3 \/ singles = 5)%nat \/ ~ (singles = 3 \/ singles = 5)%nat)
    by lia.
  destruct Hd as [H3|Hn].
  - right. destruct (Nat.eq_dec trends 1) as [E1|N1].
    + right. split; [exact H3|]. split; [exact E1|].
      destruct (conforming_trend paths (conj H3 E1)) as (trend & Ht).
      destruct (categorise_paths_Ok paths trend H3 Ht) as (s & s0 & t & _ & _ & Hok).
      eauto.
    + left. split; [exact H3|]. split; [exact N1|].
      apply categorise_paths_AssertionError; assumption.
  - left. split; [exact Hn|]. apply categorise_paths_ValueError. exact Hn.
Qed.

(** C3: [categorise_paths] raises exactly on the charts outside the
    supported layout (no trend path, two or more, or a number of
    one-segment paths other than 3 and 5) and returns on all others.  The
    wrong number of one-segment paths is a [ValueError]; the wrong number
    of trend paths, with 3 or 5 one-segment paths, an [AssertionError]. *)
Theorem categorise_paths_fails_iff (paths : list Path) :
  let singles := length (filter is_single paths) in
  let trends := length (filter is_multi paths) in
  ((exists e, categorise_paths paths = Raise e /\ ShapeError e) <->
   (trends = 0 \/ 2 <= trends \/ (singles <> 3 /\ singles <> 5))%nat) /\
  ((exists r, categorise_paths paths = Ok r) <-> conforming paths) /\
  (categorise_paths paths = Raise ValueError <->
   (singles <> 3 /\ singles <> 5)%nat) /\
  (categorise_paths paths = Raise AssertionError <->
   ((singles = 3 \/ singles = 5) /\ trends <> 1)%nat).
Proof.
  intros singles trends.
  pose proof (categorise_paths_cases paths) as Hcases.
  cbv zeta in Hcases. fold singles trends in Hcases.
  unfold conforming, ShapeError. fold singles trends.
  destruct Hcases as [[Hn Hv] | [(H3 & H1 & Ha) | (H3 & H1 & r & Hr)]];
    [rewrite Hv | rewrite Ha | rewrite Hr].
  - split; [|split; [|split]]; split.
    + intros _. lia.
    + intros _. exists ValueError. auto.
    + intros (r & Hr). discriminate.
    + intros [H3 _]. contradiction.
    + intros _. lia.
    + reflexivity.
    + discriminate.
    + intros [H3 _]. contradiction.
  - split; [|split; [|split]]; split.
    + intros _. lia.
    + intros _. exists AssertionError. auto.
    + intros (r & Hr). discriminate.
    + intros [_ E1]. contradiction.
    + discriminate.
    + intros [N3 N5]. lia.
    + intros _. auto.
    + reflexivity.
  - split; [|split; [|split]]; split.
    + intros (e & He & _). discriminate.
    + intros Hbad. lia.
    + intros _. auto.
    + intros _. eauto.
    + discriminate.
    + intros [N3 N5]. lia.
    + discriminate.
    + intros [_ N1]. contradiction.
Qed.

Lemma y_candidates_eq (paths : list Path) :
  y_candidates paths = Ok (sorted (candidate_ys paths)).
Proof.
  unfold y_candidates. rewrite mapM_single_imag. reflexivity.
Qed.

Lemma sorted_five (l : list Q) :
  length l = 5%nat ->
  exists a b c d e,
    sorted l = [a; b; c; d; e] /\ a <= b /\ b <= c /\ c <= d /\ d <= e.
Proof.
  intros Hl. pose proof (sorted_StronglySorted l) as Hs.
  rewrite <- sorted_length in Hl.
  destruct (sorted l) as [|a [|b [|c [|d [|e [|f t]]]]]]; try discriminate.
  exists a, b, c, d, e. split; [reflexivity|].
  repeat match goal with
         | H : StronglySorted _ (_ :: _) |- _ =>
             apply StronglySorted_inv in H; destruct H
         | H : Forall _ (_ :: _) |- _ =>
             apply Forall_inv in H
         end.
  auto.
Qed.

Lemma sorted_reverse_three (a c e : Q) :
  a <= c -> c <= e -> Forall2 Qeq (sorted_reverse [a; c; e]) [e; c; a].
Proof.
  intros Hac Hce. unfold sorted_reverse. cbn [fold_right insert_by].
  destruct (Qltb c e) eqn:E1; cbn [insert_by];
    destruct (Qltb a e) eqn:E2; cbn [insert_by];
    destruct (Qltb a c) eqn:E3; cbn [insert_by];
    rewrite ?E2, ?E3; cbn [insert_by];
    repeat match goal with
           | H : Qltb _ _ = true |- _ => apply Qltb_lt in H
           | H : Qltb _ _ = false |- _ => apply Qltb_ge in H
           end;
    repeat constructor; lra.
Qed.

(** C5: with five one-segment paths, the candidates, which are the start
    ordinates of these paths, are sorted as [a <= b <= c <= d <= e] and
    cut down to the first, third and fifth; whenever [categorise_paths]
    returns, its reference lines are these three sorted in descending
    order, that is [e; c; a] up to the order of equal values, and it does
    return when there is one trend path. *)
Theorem five_candidates_reduced (paths : list Path) :
  length (filter is_single paths) = 5%nat ->
  exists a b c d e,
    y_candidates paths = Ok [a; b; c; d; e] /\
    Permutation (candidate_ys paths) [a; b; c; d; e] /\
    a <= b /\ b <= c /\ c <= d /\ d <= e /\
    (forall xlim y_lines points,
        categorise_paths paths = Ok (xlim, y_lines, points) ->
        y_lines = sorted_reverse [a; c; e]) /\
    Forall2 Qeq (sorted_reverse [a; c; e]) [e; c; a] /\
    (length (filter is_multi paths) = 1%nat ->
     exists xlim points,
       categorise_paths paths = Ok (xlim, sorted_reverse [a; c; e], points)).
Proof.
  intros H5.
  assert (Hl : length (candidate_ys paths) = 5%nat)
    by (rewrite candidate_ys_length; exact H5).
  destruct (sorted_five _ Hl) as (a & b & c & d & e & Hs & Hab & Hbc & Hcd & Hde).
  exists a, b, c, d, e.
  split; [rewrite y_candidates_eq, Hs; reflexivity|].
  split; [rewrite <- Hs; apply sorted_perm|].
  do 4 (split; [assumption|]).
  assert (Hok : forall trend, filter is_multi paths = [trend] ->
                exists xlim points,
                  categorise_paths paths
                  = Ok (xlim, sorted_reverse [a; c; e], points)).
  { intros trend Ht.
    destruct (categorise_paths_Ok paths trend (or_intror H5) Ht)
      as (s & s0 & t & _ & _ & Hok).
    rewrite Hs in Hok. cbn [reduced] in Hok. eauto. }
  split; [|split].
  - intros xlim y_lines points Hr.
    destruct (categorise_paths_cases paths)
      as [[_ Hv] | [(_ & _ & Ha) | (H3 & H1 & _)]]; try congruence.
    destruct (conforming_trend paths (conj H3 H1)) as (trend & Ht).
    destruct (Hok trend Ht) as (xlim' & points' & Hok').
    congruence.
  - apply sorted_reverse_three; lra.
  - intros H1.
    destruct (conforming_trend paths (conj (or_intror H5) H1)) as (trend & Ht).
    exact (Hok trend Ht).
Qed.

Lemma five_candidates_reduced_witness :
  length (filter is_single five_chart) = 5%nat /\
  exists a b c d e,
    y_candidates five_chart = Ok [a; b; c; d; e] /\
    Permutation (candidate_ys five_chart) [a; b; c; d; e] /\
    a <= b /\ b <= c /\ c <= d /\ d <= e /\
    (forall xlim y_lines points,
        categorise_paths five_chart = Ok (xlim, y_lines, points) ->
        y_lines = sorted_reverse [a; c; e]) /\
    Forall2 Qeq (sorted_reverse [a; c; e]) [e; c; a] /\
    (length (filter is_multi five_chart) = 1%nat ->
     exists xlim points,
       categorise_paths five_chart = Ok (xlim, sorted_reverse [a; c; e], points)).
Proof.
  split; [reflexivity|]. apply (five_candidates_reduced five_chart). reflexivity.
Defined.

(** C6: on a chart of the supported layout the x limits are the start
    and end abscissas of the second one-segment path, in the order of
    [paths]. *)
Theorem xlim_from_second_single (paths : list Path) :
  conforming paths ->
  exists s y_lines points,
    nth_error (filter is_single paths) 1 = Some [s] /\
    categorise_paths paths
    = Ok ((real (start s), real (end_ s)), y_lines, points).
Proof.
  intros Hc. destruct (conforming_trend paths Hc) as (trend & Ht).
  destruct Hc as [H3 _].
  destruct (categorise_paths_Ok paths trend H3 Ht) as (s & s0 & t & Hs & _ & Hok).
  eauto.
Qed.

Lemma xlim_from_second_single_witness :
  conforming uneven_chart /\
  exists s y_lines points,
    nth_error (filter is_single uneven_chart) 1 = Some [s] /\
    categorise_paths uneven_chart
    = Ok ((real (start s), real (end_ s)), y_lines, points).
Proof.
  assert (Hc : conforming uneven_chart) by (split; [left|]; reflexivity).
  split; [exact Hc|]. exact (xlim_from_second_single uneven_chart Hc).
Defined.

(** On [uneven_chart] the three one-segment paths span (0,10), (2,8) and
    (1,9); the limits returned are those of the second. *)
Example uneven_chart_xlim :
  exists y_lines points,
    categorise_paths uneven_chart = Ok ((2, 8), y_lines, points).
Proof.
  eexists. eexists. vm_compute. reflexivity.
Qed.

Lemma candidate_ys_In (paths : list Path) (y : Q) :
  In y (candidate_ys paths) <->
  exists s, In [s] paths /\ imag (start s) = y.
Proof.
  unfold candidate_ys. rewrite in_flat_map. split.
  - intros (p & Hp & Hy). destruct p as [|s [|s' t]]; cbn in Hy; try contradiction.
    destruct Hy as [Hy|[]]. eauto.
  - intros (s & Hs & Hy). exists [s]. split; [exact Hs|]. left. exact Hy.
Qed.



(** ** Rounding and division *)

Lemma py_round_comp (q q' : Q) : q == q' -> py_round q = py_round q'.
Proof.
  intros H. unfold py_round.
  rewrite (Qfloor_comp _ _ H).
  assert (Hc : Qcompare (q - inject_Z (Qfloor q')) (1 # 2)
               = Qcompare (q' - inject_Z (Qfloor q')) (1 # 2))
    by (rewrite H; reflexivity).
  rewrite Hc. reflexivity.
Qed.

Lemma py_round_inject_Z (z : Z) : py_round (inject_Z z) = z.
Proof.
  unfold py_round. rewrite Qfloor_Z.
  destruct (Qcompare_spec (inject_Z z - inject_Z z) (1 # 2)) as [H|H|H];
    [exfalso; lra | reflexivity | exfalso; lra].
Qed.

Lemma py_round_nonneg_iff (q : Q) : (0 <= py_round q)%Z <-> - (1 # 2) <= q.
Proof.
  unfold py_round.
  pose proof (Qfloor_le q) as Hlo. pose proof (Qlt_floor q) as Hhi.
  rewrite inject_Z_plus in Hhi. change (inject_Z 1) with 1 in Hhi.
  set (f := Qfloor q) in *.
  destruct (Z_lt_le_dec f 0) as [Hneg|Hpos].
  - destruct (Z.eq_dec f (-1)) as [E|N].
    + rewrite E in *. change (inject_Z (-1)) with (-1) in *. cbn [Z.even].
      destruct (Qcompare_spec (q - -1) (1 # 2)) as [C|C|C].
      * split; intros _; [lra|lia].
      * split; intros H; [lia|lra].
      * split; intros _; [lra|lia].
    + assert (Hf : inject_Z f <= inject_Z (-2)) by (rewrite <- Zle_Qle; lia).
      change (inject_Z (-2)) with (-2) in Hf.
      split; [|intros; lra].
      intros H. exfalso.
      destruct (Qcompare (q - inject_Z f) (1 # 2)); [destruct (Z.even f)| |]; lia.
  - assert (Hf : inject_Z 0 <= inject_Z f) by (rewrite <- Zle_Qle; lia).
    change (inject_Z 0) with 0 in Hf.
    split; [intros; lra|]. intros _.
    destruct (Qcompare (q - inject_Z f) (1 # 2)); [destruct (Z.even f)| |]; lia.
Qed.

Lemma py_div_Ok (a b : Q) : ~ b == 0 -> py_div a b = Ok (a / b).
Proof.
  intros H. unfold py_div. destruct (Qeq_bool b 0) eqn:E; [|reflexivity].
  apply Qeq_bool_iff in E. contradiction.
Qed.

Lemma py_div_Raise (a b : Q) : b == 0 -> py_div a b = Raise ZeroDivisionError.
Proof.
  intros H. unfold py_div. apply Qeq_bool_iff in H. rewrite H. reflexivity.
Qed.

Lemma y_scale_of_zero_iff (ymax ymid ymin : Q) :
  y_scale_of ymax ymid ymin == 0 <-> ymax == ymid /\ ymid == ymin.
Proof.
  unfold y_scale_of.
  change ((Qabs (ymax - ymid) + Qabs (ymid - ymin)) / 2)
    with ((Qabs (ymax - ymid) + Qabs (ymid - ymin)) * (1 # 2)).
  pose proof (Qabs_nonneg (ymax - ymid)) as H1.
  pose proof (Qabs_nonneg (ymid - ymin)) as H2.
  split.
  - intros H.
    assert (E1 : Qabs (ymax - ymid) == 0) by lra.
    assert (E2 : Qabs (ymid - ymin) == 0) by lra.
    revert E1 E2. apply Qabs_case; apply Qabs_case; intros; lra.
  - intros [E1 E2].
    assert (Z1 : ymax - ymid == 0) by lra.
    assert (Z2 : ymid - ymin == 0) by lra.
    rewrite Z1, Z2. reflexivity.
Qed.

(** ** Comprehensions that may raise *)

Section MapM.

Context {A B : Type}.
Variable f : A -> result B.

Lemma mapM_Forall2 (l : list A) (out : list B) :
  mapM f l = Ok out <-> Forall2 (fun a b => f a = Ok b) l out.
Proof.
  revert out. induction l as [|a l IH]; intros out; cbn [mapM].
  - split.
    + intros [= <-]. constructor.
    + intros H. inversion H. reflexivity.
  - split.
    + destruct (f a) as [b|e] eqn:Ea; cbn [bind]; [|discriminate].
      destruct (mapM f l) as [bs|e] eqn:El; cbn [bind]; [|discriminate].
      intros [= <-]. constructor; [exact Ea|]. apply IH. reflexivity.
    + intros H. inversion H as [|a' b l' bs Hab Hrest]; subst.
      rewrite Hab. cbn [bind]. apply IH in Hrest. rewrite Hrest. reflexivity.
Qed.

Lemma mapM_total (l : list A) :
  (forall a, In a l -> exists b, f a = Ok b) -> exists out, mapM f l = Ok out.
Proof.
  induction l as [|a l IH]; intros H; cbn [mapM].
  - eauto.
  - destruct (H a (or_introl eq_refl)) as (b & ->). cbn [bind].
    destruct IH as (bs & ->); [intros; apply H; right; assumption|].
    cbn [bind]. eauto.
Qed.

Lemma mapM_pure (g : A -> B) (l : list A) :
  (forall a, f a = Ok (g a)) -> mapM f l = Ok (map g l).
Proof.
  intros H. induction l as [|a l IH]; cbn [mapM map]; [reflexivity|].
  rewrite H, IH. reflexivity.
Qed.

End MapM.

Lemma Forall2_map_r {A B : Type} (P : A -> B -> Prop) (g : A -> B) (l : list A) :
  (forall a, P a (g a)) -> Forall2 P l (map g l).
Proof.
  intros H. induction l as [|a l IH]; cbn [map]; constructor; auto.
Qed.

Lemma Forall2_nth_error_l {A B : Type} (P : A -> B -> Prop) l out i a :
  Forall2 P l out -> nth_error l i = Some a ->
  exists b, nth_error out i = Some b /\ P a b.
Proof.
  intros H. revert i. induction H as [|a' b' l' out' Hab _ IH]; intros i Hi.
  - destruct i; discriminate.
  - destruct i as [|i]; cbn [nth_error] in *.
    + injection Hi as <-. eauto.
    + apply IH. exact Hi.
Qed.

(** ** The loop of convert_units is a pointwise map *)

Section ConvertLoop.

Variables xmin x_scale ymid y_scale yspan xspan : Q.

Let image := convert_point xmin x_scale ymid y_scale yspan xspan.

Lemma convert_loop_mapM trend acc :
  convert_loop xmin x_scale ymid y_scale yspan xspan trend acc
  = (out <- mapM image trend ;; Ok (acc ++ out)).
Proof.
  revert acc. induction trend as [|point rest IH]; intros acc;
    cbn [convert_loop mapM bind].
  - rewrite app_nil_r. reflexivity.
  - fold image. destruct (image point) as [o|e]; cbn [bind]; [|reflexivity].
    rewrite IH.
    destruct (mapM image rest) as [os|e]; cbn [bind]; [|reflexivity].
    rewrite <- app_assoc. reflexivity.
Qed.

Lemma convert_point_Ok point :
  ~ x_scale == 0 -> ~ y_scale == 0 ->
  image point
  = Ok ((1 + py_round (xspan * ((real point - xmin) / x_scale)))%Z,
        yspan * ((ymid - imag point) / y_scale)).
Proof.
  intros Hx Hy. unfold image, convert_point.
  rewrite (py_div_Ok _ _ Hx), (py_div_Ok _ _ Hy). reflexivity.
Qed.

Lemma convert_point_Raise point :
  x_scale == 0 \/ y_scale == 0 -> image point = Raise ZeroDivisionError.
Proof.
  intros H. unfold image, convert_point.
  destruct (Qeq_dec x_scale 0) as [Ex|Nx].
  - rewrite (py_div_Raise _ _ Ex). reflexivity.
  - destruct H as [Ex|Ey]; [contradiction|].
    rewrite (py_div_Ok _ _ Nx), (py_div_Raise _ _ Ey). reflexivity.
Qed.

Lemma convert_point_inv point o :
  image point = Ok o ->
  ~ x_scale == 0 /\ ~ y_scale == 0 /\
  o = ((1 + py_round (xspan * ((real point - xmin) / x_scale)))%Z,
       yspan * ((ymid - imag point) / y_scale)).
Proof.
  intros H.
  destruct (Qeq_dec x_scale 0) as [Ex|Nx];
    [rewrite convert_point_Raise in H by (left; exact Ex); discriminate|].
  destruct (Qeq_dec y_scale 0) as [Ey|Ny];
    [rewrite convert_point_Raise in H by (right; exact Ey); discriminate|].
  rewrite (convert_point_Ok _ Nx Ny) in H.
  injection H as <-. auto.
Qed.

End ConvertLoop.

Lemma convert_units_eq trend ymax ymid ymin xmin xmax yspan xspan :
  convert_units trend [ymax; ymid; ymin] (xmin, xmax) yspan xspan
  = mapM (convert_point xmin (xmax - xmin) ymid (y_scale_of ymax ymid ymin)
                        yspan xspan) trend.
Proof.
  unfold convert_units. cbn [unpack3 bind].
  rewrite convert_loop_mapM.
  destruct (mapM _ trend); reflexivity.
Qed.

(** ** Properties of convert_units *)

(** In the exact model the order of the product and the quotient does not
    matter: with non-zero scales every point [(x, y)] is mapped to the day
    index [1 + round (x_span * (x - x_min) / (x_max - x_min))] and to the
    value [y_span * (y_mid - y) / y_scale].  On doubles the two orders
    differ; the formula as the code computes it is stated on [F64]
    below. *)
Lemma exact_formula_agreement :
  (forall trend y_top y_mid y_bottom x_min x_max y_span x_span,
      ~ x_max - x_min == 0 ->
      ~ y_scale_spec y_top y_mid y_bottom == 0 ->
      exists out,
        convert_units trend [y_top; y_mid; y_bottom] (x_min, x_max)
                      y_span x_span = Ok out /\
        Forall2 (fun point o =>
                   fst o = day_index_spec x_span x_min x_max (real point) /\
                   snd o == value_spec y_span y_top y_mid y_bottom (imag point))
                trend out) /\
  (forall y, exists v,
        convert_units [Complex 5 y] [1; 0; -1] (0, 10) 80 42
        = Ok [(22%Z, v)]) /\
  (forall x, exists d v,
        convert_units [Complex x (1 # 2)] [1; 0; -1] (0, 10) 80 42
        = Ok [(d, v)] /\ v == -40).
Proof.
  split; [|split].
  - intros trend y_top y_mid y_bottom x_min x_max y_span x_span Hx Hy.
    change (y_scale_spec y_top y_mid y_bottom)
      with (y_scale_of y_top y_mid y_bottom) in Hy.
    rewrite convert_units_eq.
    eexists. split.
    + apply mapM_pure. intros point. apply convert_point_Ok; assumption.
    + apply Forall2_map_r. intros point. cbn [fst snd]. split.
      * unfold day_index_spec. f_equal. apply py_round_comp. field. exact Hx.
      * unfold value_spec.
        change (y_scale_spec y_top y_mid y_bottom)
          with (y_scale_of y_top y_mid y_bottom).
        field. exact Hy.
  - intros y. rewrite convert_units_eq. cbn [mapM].
    rewrite convert_point_Ok; [|vm_compute; discriminate|vm_compute; discriminate].
    cbn [bind real imag]. eexists. f_equal.
  - intros x. rewrite convert_units_eq. cbn [mapM].
    rewrite convert_point_Ok; [|vm_compute; discriminate|vm_compute; discriminate].
    cbn [bind real imag]. eexists. eexists. split; [reflexivity|].
    reflexivity.
Qed.

(** C9: [convert_units] is a pointwise map: when it returns, the output
    has the length of the input and its i-th element is the image of the
    i-th point, in the same order. *)
Theorem convert_units_pointwise trend ymax ymid ymin xmin xmax yspan xspan out :
  convert_units trend [ymax; ymid; ymin] (xmin, xmax) yspan xspan = Ok out ->
  let image := convert_point xmin (xmax - xmin) ymid
                             (y_scale_of ymax ymid ymin) yspan xspan in
  length out = length trend /\
  Forall2 (fun point o => image point = Ok o) trend out /\
  (forall i point, nth_error trend i = Some point ->
                   exists o, nth_error out i = Some o /\ image point = Ok o).
Proof.
  intros H image. rewrite convert_units_eq in H. fold image in H.
  apply mapM_Forall2 in H.
  split; [symmetry; eapply Forall2_length; exact H|].
  split; [exact H|].
  intros i point Hi. eapply Forall2_nth_error_l in Hi; [|exact H]. exact Hi.
Qed.

Lemma convert_units_pointwise_witness :
  exists out,
    convert_units [Complex 5 (1 # 2); Complex 0 1; Complex 5 (1 # 2)]
                  [1; 0; -1] (0, 10) 80 42 = Ok out /\
    length out = 3%nat /\
    Forall2 (fun point o =>
               convert_point 0 (10 - 0) 0 (y_scale_of 1 0 (-1)) 80 42 point = Ok o)
            [Complex 5 (1 # 2); Complex 0 1; Complex 5 (1 # 2)] out /\
    (forall i point,
        nth_error [Complex 5 (1 # 2); Complex 0 1; Complex 5 (1 # 2)] i
        = Some point ->
        exists o, nth_error out i = Some o /\
                  convert_point 0 (10 - 0) 0 (y_scale_of 1 0 (-1)) 80 42 point
                  = Ok o).
Proof.
  eexists. split; [vm_compute; reflexivity|].
  apply (convert_units_pointwise
           [Complex 5 (1 # 2); Complex 0 1; Complex 5 (1 # 2)]
           1 0 (-1) 0 10 80 42).
  vm_compute. reflexivity.
Defined.




Lemma offset_nonneg (xspan x xmin xmax : Q) :
  xmin < xmax -> 0 <= xspan -> xmin <= x ->
  0 <= xspan * ((x - xmin) / (xmax - xmin)).
Proof.
  intros Hlt Hs Hx. apply Qmult_le_0_compat; [exact Hs|].
  apply Qle_shift_div_l; [lra|]. rewrite Qmult_0_l. lra.
Qed.

(** C8 (as amended): the day index of a converted point is an integer,
    and it is at least 1 for every point that is not to the left of
    [xmin], when [xmin < xmax] and [xspan] is not negative. *)
Theorem day_index_at_least_one trend ymax ymid ymin xmin xmax yspan xspan out :
  convert_units trend [ymax; ymid; ymin] (xmin, xmax) yspan xspan = Ok out ->
  xmin < xmax -> 0 <= xspan ->
  Forall (fun point => xmin <= real point) trend ->
  Forall (fun o => (1 <= fst o)%Z) out.
Proof.
  intros H Hlt Hs Hall. rewrite convert_units_eq in H.
  apply mapM_Forall2 in H.
  induction H as [|point o trend' out' Hpo _ IH]; constructor.
  - apply convert_point_inv in Hpo. destruct Hpo as (_ & _ & ->). cbn [fst].
    apply Forall_inv in Hall.
    pose proof (offset_nonneg xspan (real point) xmin xmax Hlt Hs Hall) as Hn.
    assert (Hr : (0 <= py_round (xspan * ((real point - xmin) / (xmax - xmin))))%Z)
      by (apply py_round_nonneg_iff; lra).
    lia.
  - apply IH. apply Forall_inv_tail in Hall. exact Hall.
Qed.

Lemma day_index_at_least_one_witness :
  exists out,
    convert_units [Complex 0 1; Complex 5 0; Complex 10 (-1)]
                  [1; 0; -1] (0, 10) 80 42 = Ok out /\
    0 < 10 /\ 0 <= 42 /\
    Forall (fun point => 0 <= real point)
           [Complex 0 1; Complex 5 0; Complex 10 (-1)] /\
    Forall (fun o => (1 <= fst o)%Z) out.
Proof.
  eexists. split; [vm_compute; reflexivity|].
  assert (H1 : 0 < 10) by reflexivity.
  assert (H2 : 0 <= 42) by (vm_compute; discriminate).
  assert (H3 : Forall (fun point => 0 <= real point)
                      [Complex 0 1; Complex 5 0; Complex 10 (-1)])
    by (repeat constructor; vm_compute; discriminate).
  split; [exact H1|]. split; [exact H2|]. split; [exact H3|].
  exact (day_index_at_least_one
           [Complex 0 1; Complex 5 0; Complex 10 (-1)] 1 0 (-1) 0 10 80 42
           _ eq_refl H1 H2 H3).
Defined.

(** C8, as stated, fails: with limits (0, 10) and [xspan = 42] the point
    of abscissa -10 is converted to day index -41. *)
Lemma day_index_counterexample :
  exists d v,
    convert_units [Complex (-10) 0] [1; 0; -1] (0, 10) 80 42 = Ok [(d, v)] /\
    d = (-41)%Z /\ (d < 1)%Z.
Proof.
  eexists. eexists. split; [vm_compute; reflexivity|].
  split; reflexivity.
Qed.

(** ** More on categorise_paths: the shape of its results *)

Lemma trend_pairs_cons (a b : Segment) (t : list Segment) :
  trend_pairs (a :: b :: t) = (a, b) :: trend_pairs (b :: t).
Proof. reflexivity. Qed.

Lemma fold_mid_step_app prs acc :
  fold_left mid_step prs acc = acc ++ fold_left mid_step prs [].
Proof.
  revert acc. induction prs as [|[a b] prs IH]; intros acc; cbn [fold_left].
  - rewrite app_nil_r. reflexivity.
  - rewrite IH. rewrite (IH (mid_step [] (a, b))).
    rewrite app_assoc. f_equal.
    unfold mid_step. destruct (negb (np.isclose (end_ a) (start b)));
      cbn [app]; rewrite <- ?app_assoc; reflexivity.
Qed.

Lemma last_default {A : Type} (l : list A) (d d' : A) :
  l <> [] -> last l d = last l d'.
Proof.
  induction l as [|x [|y l] IH]; intros H; [contradiction|reflexivity|].
  change (last (x :: y :: l) d) with (last (y :: l) d).
  change (last (x :: y :: l) d') with (last (y :: l) d').
  apply IH. discriminate.
Qed.

Lemma mid_points_walk (a : Segment) (rest : list Segment) :
  mid_points_of (a :: rest) ++ [end_ (last (a :: rest) a)] = walk a rest.
Proof.
  revert a. induction rest as [|b t IH]; intros a; [reflexivity|].
  unfold mid_points_of. rewrite trend_pairs_cons. cbn [fold_left walk].
  rewrite fold_mid_step_app. fold (mid_points_of (b :: t)).
  change (last (a :: b :: t) a) with (last (b :: t) a).
  rewrite (last_default (b :: t) a b) by discriminate.
  rewrite <- IH. unfold mid_step, is_gap. cbn [fst snd].
  destruct (negb (np.isclose (end_ a) (start b)));
    cbn [app]; rewrite <- ?app_assoc; reflexivity.
Qed.

Lemma categorise_paths_Ok_inv paths xlim y_lines points :
  categorise_paths paths = Ok (xlim, y_lines, points) ->
  exists s s0 s1 t,
    conforming paths /\
    nth_error (filter is_single paths) 1 = Some [s] /\
    filter is_multi paths = [s0 :: s1 :: t] /\
    xlim = (real (start s), real (end_ s)) /\
    y_lines = sorted_reverse (reduced (sorted (candidate_ys paths))) /\
    points = start s0 :: walk s0 (s1 :: t).
Proof.
  intros H.
  destruct (categorise_paths_cases paths)
    as [[_ Hv] | [(_ & _ & Ha) | (H3 & H1 & _)]]; try congruence.
  destruct (conforming_trend paths (conj H3 H1)) as (trend & Ht).
  destruct (categorise_paths_Ok paths trend H3 Ht) as (s & s0 & t & Hs & Htr & Hok).
  assert (Hm : is_multi trend = true).
  { assert (Hin : In trend (filter is_multi paths)) by (rewrite Ht; left; reflexivity).
    apply filter_In in Hin. tauto. }
  destruct (is_multi_cons trend Hm) as (a & b & t' & E).
  rewrite E in Htr. injection Htr as <- <-.
  rewrite Hok in H. injection H as <- <- <-.
  exists s, a, b, t'. split; [split; assumption|]. split; [exact Hs|].
  split; [rewrite Ht, E; reflexivity|]. split; [reflexivity|].
  split; [reflexivity|]. rewrite E. rewrite mid_points_walk. reflexivity.
Qed.

Lemma conforming_Ok paths :
  conforming paths ->
  exists xlim y_lines points, categorise_paths paths = Ok (xlim, y_lines, points).
Proof.
  intros Hc. destruct (conforming_trend paths Hc) as (trend & Ht).
  destruct Hc as [H3 _].
  destruct (categorise_paths_Ok paths trend H3 Ht) as (s & s0 & t & _ & _ & Hok).
  eauto.
Qed.

Lemma insert_by_rev_sorted x l :
  descending l ->
  descending (insert_by (fun a b => Qltb b a) x l).
Proof.
  induction 1 as [|y l Hs IH Hy]; cbn.
  - repeat constructor.
  - destruct (Qltb x y) eqn:E.
    + constructor; [exact IH|].
      apply Qltb_lt in E.
      rewrite <- insert_by_perm.
      constructor; [apply Qlt_le_weak; exact E|exact Hy].
    + apply Qltb_ge in E. constructor.
      * constructor; assumption.
      * constructor; [exact E|].
        eapply Forall_impl; [|exact Hy]. intros z Hz. cbv beta in *.
        apply (Qle_trans z y x); assumption.
Qed.

Lemma sorted_reverse_StronglySorted l : descending (sorted_reverse l).
Proof.
  induction l as [|x l IH]; cbn; [constructor|].
  apply insert_by_rev_sorted. exact IH.
Qed.

Lemma sorted_reverse_fixed l :
  descending l -> sorted_reverse l = l.
Proof.
  induction 1 as [|x l Hs IH Hx]; [reflexivity|].
  cbn [sorted_reverse fold_right]. fold (sorted_reverse l). rewrite IH.
  destruct l as [|y l]; [reflexivity|].
  cbn [insert_by]. apply Forall_inv in Hx.
  apply Qltb_ge in Hx. rewrite Hx. reflexivity.
Qed.

Lemma reduced_incl (ys : list Q) (y : Q) : In y (reduced ys) -> In y ys.
Proof.
  destruct ys as [|a [|b [|c [|d [|e [|f t]]]]]]; cbn; tauto.
Qed.

(** X1: whenever [categorise_paths] returns, the reference lines are
    three, in descending order, and each is the start ordinate of a
    one-segment path of the input. *)
Theorem y_lines_three_descending paths xlim y_lines points :
  categorise_paths paths = Ok (xlim, y_lines, points) ->
  length y_lines = 3%nat /\
  descending y_lines /\
  (forall y, In y y_lines -> exists s, In [s] paths /\ imag (start s) = y).
Proof.
  intros H.
  destruct (categorise_paths_Ok_inv _ _ _ _ H)
    as (s & s0 & s1 & t & [H3 _] & _ & _ & _ & -> & _).
  split; [|split].
  - rewrite sorted_reverse_length. apply singles_reduced. exact H3.
  - apply sorted_reverse_StronglySorted.
  - intros y Hy. apply candidate_ys_In.
    eapply Permutation_in; [symmetry; apply sorted_perm|].
    apply reduced_incl.
    eapply Permutation_in; [symmetry; apply sorted_reverse_perm|]. exact Hy.
Qed.

Lemma y_lines_three_descending_witness :
  exists xlim y_lines points,
    categorise_paths five_chart = Ok (xlim, y_lines, points) /\
    length y_lines = 3%nat /\
    descending y_lines /\
    (forall y, In y y_lines ->
               exists s, In [s] five_chart /\ imag (start s) = y).
Proof.
  eexists. eexists. eexists. split; [vm_compute; reflexivity|].
  apply (y_lines_three_descending five_chart (0, 10) _
           [Complex 0 0; Complex 1 1; Complex 3 0]).
  vm_compute. reflexivity.
Defined.

(** X2: the second sort of the reference lines, in [main], changes
    nothing: the list returned by [categorise_paths] is already the
    result of [sort(reverse=True)]. *)
Theorem second_sort_is_identity paths xlim y_lines points :
  categorise_paths paths = Ok (xlim, y_lines, points) ->
  sorted_reverse y_lines = y_lines.
Proof.
  intros H.
  destruct (categorise_paths_Ok_inv _ _ _ _ H)
    as (s & s0 & s1 & t & _ & _ & _ & _ & -> & _).
  apply sorted_reverse_fixed. apply sorted_reverse_StronglySorted.
Qed.

Lemma second_sort_is_identity_witness :
  exists xlim y_lines points,
    categorise_paths five_chart = Ok (xlim, y_lines, points) /\
    sorted_reverse y_lines = y_lines.
Proof.
  eexists. eexists. eexists. split; [vm_compute; reflexivity|].
  apply (second_sort_is_identity five_chart (0, 10) _
           [Complex 0 0; Complex 1 1; Complex 3 0]).
  vm_compute. reflexivity.
Defined.

(** ** The trend points, segment by segment *)

Lemma last_cons {A : Type} (b : A) (t : list A) (d : A) :
  last (b :: t) d = last t b.
Proof.
  revert b d. induction t as [|c t IH]; intros b d; [reflexivity|].
  change (last (b :: c :: t) d) with (last (c :: t) d).
  rewrite IH. symmetry. apply IH.
Qed.

Lemma subseq_refl {A : Type} (l : list A) : subseq l l.
Proof. induction l; constructor; assumption. Qed.

Lemma subseq_length {A : Type} (l l' : list A) :
  subseq l l' -> (length l <= length l')%nat.
Proof. induction 1; cbn [length]; lia. Qed.

Lemma count_gaps_cons (a b : Segment) (t : list Segment) :
  count_gaps (a :: b :: t)
  = ((if is_gap (a, b) then 1 else 0) + count_gaps (b :: t))%nat.
Proof.
  unfold count_gaps. rewrite trend_pairs_cons. cbn [filter].
  destruct (is_gap (a, b)); reflexivity.
Qed.

Lemma count_gaps_le (a : Segment) (rest : list Segment) :
  (count_gaps (a :: rest) <= length rest)%nat.
Proof.
  revert a. induction rest as [|b t IH]; intros a; [cbn; lia|].
  rewrite count_gaps_cons. specialize (IH b).
  destruct (is_gap (a, b)); cbn [length]; lia.
Qed.

Lemma walk_length (a : Segment) (rest : list Segment) :
  length (walk a rest) = (length rest + 1 + count_gaps (a :: rest))%nat.
Proof.
  revert a. induction rest as [|b t IH]; intros a; [reflexivity|].
  cbn [walk]. rewrite count_gaps_cons, length_app. cbn [length]. rewrite IH.
  destruct (is_gap (a, b)); cbn [length]; lia.
Qed.

Lemma walk_last (a : Segment) (rest : list Segment) (d : complex) :
  last (walk a rest) d = end_ (last rest a).
Proof.
  revert a d. induction rest as [|b t IH]; intros a d; [reflexivity|].
  rewrite (last_cons b t a). cbn [walk].
  destruct (is_gap (a, b)); cbn [app]; rewrite !last_cons; apply IH.
Qed.

Lemma walk_lower (a : Segment) (rest : list Segment) :
  subseq (map start rest ++ [end_ (last rest a)]) (walk a rest).
Proof.
  revert a. induction rest as [|b t IH]; intros a.
  - apply subseq_refl.
  - rewrite last_cons. cbn [map app walk].
    destruct (is_gap (a, b)); cbn [app].
    + apply subseq_skip. apply subseq_keep. apply IH.
    + apply subseq_keep. apply IH.
Qed.

Lemma walk_upper (a : Segment) (rest : list Segment) :
  subseq (walk a rest)
         (end_ a :: flat_map (fun s => [start s; end_ s]) rest).
Proof.
  revert a. induction rest as [|b t IH]; intros a.
  - apply subseq_refl.
  - cbn [walk flat_map app].
    destruct (is_gap (a, b)); cbn [app].
    + apply subseq_keep. apply subseq_keep. apply IH.
    + apply subseq_skip. apply subseq_keep. apply IH.
Qed.

Lemma walk_gap_free (a : Segment) (rest : list Segment) :
  count_gaps (a :: rest) = 0%nat ->
  walk a rest = map start rest ++ [end_ (last rest a)].
Proof.
  revert a. induction rest as [|b t IH]; intros a H; [reflexivity|].
  rewrite count_gaps_cons in H. rewrite last_cons. cbn [walk map app].
  destruct (is_gap (a, b)); [discriminate|].
  cbn [app]. rewrite IH by exact H. reflexivity.
Qed.

Lemma walk_all_gaps (a : Segment) (rest : list Segment) :
  count_gaps (a :: rest) = length rest ->
  walk a rest = end_ a :: flat_map (fun s => [start s; end_ s]) rest.
Proof.
  revert a. induction rest as [|b t IH]; intros a H; [reflexivity|].
  rewrite count_gaps_cons in H. cbn [walk flat_map app length] in *.
  pose proof (count_gaps_le b t) as Hle.
  destruct (is_gap (a, b)); [|lia].
  cbn [app]. rewrite IH by lia. reflexivity.
Qed.

(** X3: the trend points keep the order of the trend path.  They begin
    with the start of its first segment and finish with the end of its
    last; no start of a segment is left out, and nothing is added but
    ends of segments: the starts followed by the final end are the points
    with some left out, and the points are the starts and ends of all
    segments with some left out. *)
Theorem trend_points_in_order paths xlim y_lines points :
  categorise_paths paths = Ok (xlim, y_lines, points) ->
  exists s0 rest,
    filter is_multi paths = [s0 :: rest] /\
    hd_error points = Some (start s0) /\
    last points (start s0) = end_ (last rest s0) /\
    subseq (map start (s0 :: rest) ++ [end_ (last rest s0)]) points /\
    subseq points (flat_map (fun s => [start s; end_ s]) (s0 :: rest)).
Proof.
  intros H.
  destruct (categorise_paths_Ok_inv _ _ _ _ H)
    as (s & s0 & s1 & t & _ & _ & Ht & _ & _ & ->).
  exists s0, (s1 :: t). split; [exact Ht|]. split; [reflexivity|].
  split; [|split].
  - rewrite last_cons. apply walk_last.
  - cbn [map app]. apply subseq_keep. apply (walk_lower s0 (s1 :: t)).
  - cbn [flat_map app]. apply subseq_keep. apply (walk_upper s0 (s1 :: t)).
Qed.

Lemma trend_points_in_order_witness :
  exists xlim y_lines points s0 rest,
    categorise_paths gap_chart = Ok (xlim, y_lines, points) /\
    filter is_multi gap_chart = [s0 :: rest] /\
    hd_error points = Some (start s0) /\
    last points (start s0) = end_ (last rest s0) /\
    subseq (map start (s0 :: rest) ++ [end_ (last rest s0)]) points /\
    subseq points (flat_map (fun s => [start s; end_ s]) (s0 :: rest)).
Proof.
  destruct (trend_points_in_order gap_chart (0, 10) [1; 0; -1]
              [Complex 0 0; Complex 1 1; Complex 2 1; Complex 3 0])
    as (s0 & rest & H); [vm_compute; reflexivity|].
  eexists. eexists. eexists. exists s0, rest.
  split; [vm_compute; reflexivity|]. exact H.
Defined.

(** X4: the two extremes.  The trend has no gap exactly when the points
    are the starts of its segments followed by the end of the last one;
    every pair of consecutive segments is a gap exactly when the points
    are the start and the end of every segment. *)
Theorem trend_points_extremes paths xlim y_lines points :
  categorise_paths paths = Ok (xlim, y_lines, points) ->
  exists s0 rest,
    filter is_multi paths = [s0 :: rest] /\
    (count_gaps (s0 :: rest) = 0%nat <->
     points = map start (s0 :: rest) ++ [end_ (last rest s0)]) /\
    (count_gaps (s0 :: rest) = length rest <->
     points = flat_map (fun s => [start s; end_ s]) (s0 :: rest)).
Proof.
  intros H.
  destruct (categorise_paths_Ok_inv _ _ _ _ H)
    as (s & s0 & s1 & t & _ & _ & Ht & _ & _ & ->).
  exists s0, (s1 :: t). split; [exact Ht|].
  pose proof (walk_length s0 (s1 :: t)) as Hlen.
  split; split.
  - intros Hg. cbn [map app]. f_equal. apply walk_gap_free. exact Hg.
  - intros E. apply (f_equal (@length complex)) in E.
    cbn [map app length] in E. rewrite length_app, length_map in E.
    cbn [length] in *. lia.
  - intros Hg. cbn [flat_map app]. f_equal. apply walk_all_gaps. exact Hg.
  - intros E. apply (f_equal (@length complex)) in E.
    cbn [flat_map app length] in E.
    assert (Hf : forall l : list Segment,
               length (flat_map (fun s => [start s; end_ s]) l)
               = (2 * length l)%nat).
    { induction l as [|x l IH]; cbn [flat_map app length]; lia. }
    rewrite Hf in E. cbn [length] in *. lia.
Qed.

Lemma trend_points_extremes_witness :
  exists xlim y_lines points s0 rest,
    categorise_paths nogap_chart = Ok (xlim, y_lines, points) /\
    filter is_multi nogap_chart = [s0 :: rest] /\
    (count_gaps (s0 :: rest) = 0%nat <->
     points = map start (s0 :: rest) ++ [end_ (last rest s0)]) /\
    (count_gaps (s0 :: rest) = length rest <->
     points = flat_map (fun s => [start s; end_ s]) (s0 :: rest)).
Proof.
  destruct (trend_points_extremes nogap_chart (0, 10) [1; 0; -1]
              [Complex 0 0; Complex 1 1; Complex 3 0])
    as (s0 & rest & H); [vm_compute; reflexivity|].
  eexists. eexists. eexists. exists s0, rest.
  split; [vm_compute; reflexivity|]. exact H.
Defined.

(** X5: a trend of [n] segments yields at least [n + 1] and at most
    [2 * n] points, and never fewer than three. *)
Theorem trend_points_bounds paths xlim y_lines points :
  categorise_paths paths = Ok (xlim, y_lines, points) ->
  exists trend,
    filter is_multi paths = [trend] /\
    (length trend + 1 <= length points)%nat /\
    (length points <= 2 * length trend)%nat /\
    (3 <= length points)%nat.
Proof.
  intros H.
  destruct (categorise_paths_Ok_inv _ _ _ _ H)
    as (s & s0 & s1 & t & _ & _ & Ht & _ & _ & ->).
  exists (s0 :: s1 :: t). split; [exact Ht|].
  pose proof (walk_length s0 (s1 :: t)) as Hlen.
  pose proof (count_gaps_le s0 (s1 :: t)) as Hle.
  cbn [length] in *. lia.
Qed.

Lemma trend_points_bounds_witness :
  exists xlim y_lines points trend,
    categorise_paths gap_chart = Ok (xlim, y_lines, points) /\
    filter is_multi gap_chart = [trend] /\
    (length trend + 1 <= length points)%nat /\
    (length points <= 2 * length trend)%nat /\
    (3 <= length points)%nat.
Proof.
  destruct (trend_points_bounds gap_chart (0, 10) [1; 0; -1]
              [Complex 0 0; Complex 1 1; Complex 2 1; Complex 3 0])
    as (trend & H); [vm_compute; reflexivity|].
  eexists. eexists. eexists. exists trend.
  split; [vm_compute; reflexivity|]. exact H.
Defined.

(** ** What categorise_paths does not look at *)

Lemma categorise_paths_ext (paths paths' : list Path) :
  candidate_ys paths = candidate_ys paths' ->
  single_xlims paths = single_xlims paths' ->
  filter is_multi paths = filter is_multi paths' ->
  categorise_paths paths = categorise_paths paths'.
Proof.
  intros Hy Hx Hm. rewrite !categorise_paths_eq, Hy, Hx, Hm. reflexivity.
Qed.

(** X6: a path without segments is ignored, wherever it stands in the
    input. *)
Theorem empty_path_ignored (l1 l2 : list Path) :
  categorise_paths (l1 ++ [] :: l2) = categorise_paths (l1 ++ l2).
Proof.
  apply categorise_paths_ext.
  - unfold candidate_ys. rewrite !flat_map_app. reflexivity.
  - unfold single_xlims. rewrite !flat_map_app. reflexivity.
  - rewrite !filter_app. reflexivity.
Qed.

(** X7: the place of the trend path among the one-segment paths does not
    matter: moving it in front of the paths before it, none of which has
    several segments, gives the same result. *)
Theorem trend_position_irrelevant (l1 l2 : list Path) (trend : Path) :
  is_multi trend = true ->
  Forall (fun path => is_multi path = false) l1 ->
  categorise_paths (l1 ++ trend :: l2) = categorise_paths (trend :: l1 ++ l2).
Proof.
  intros Hm Hl1.
  destruct (is_multi_cons trend Hm) as (s0 & s1 & t & ->).
  apply categorise_paths_ext.
  - unfold candidate_ys. rewrite flat_map_app. cbn [flat_map app].
    rewrite flat_map_app. reflexivity.
  - unfold single_xlims. rewrite flat_map_app. cbn [flat_map app].
    rewrite flat_map_app. reflexivity.
  - rewrite filter_app. cbn [filter]. rewrite Hm, filter_app.
    assert (E : filter is_multi l1 = []).
    { clear -Hl1. induction Hl1 as [|p l Hp _ IH]; [reflexivity|].
      cbn [filter]. rewrite Hp. exact IH. }
    rewrite E. reflexivity.
Qed.

Lemma trend_position_irrelevant_witness :
  is_multi gap_trend = true /\
  Forall (fun path => is_multi path = false) [ref_top; ref_mid] /\
  categorise_paths ([ref_top; ref_mid] ++ gap_trend :: [ref_bottom])
  = categorise_paths (gap_trend :: [ref_top; ref_mid] ++ [ref_bottom]).
Proof.
  assert (Hm : is_multi gap_trend = true) by reflexivity.
  assert (Hl : Forall (fun path => is_multi path = false) [ref_top; ref_mid])
    by (repeat constructor).
  split; [exact Hm|]. split; [exact Hl|].
  exact (trend_position_irrelevant [ref_top; ref_mid] [ref_bottom] gap_trend Hm Hl).
Defined.

(** ** More on convert_units: order and range *)

Lemma py_round_monotone (q q' : Q) :
  q <= q' -> (py_round q <= py_round q')%Z.
Proof.
  intros H. pose proof (Qfloor_resp_le q q' H) as Hf.
  pose proof (Qfloor_le q) as Hlo. pose proof (Qlt_floor q) as Hhi.
  pose proof (Qfloor_le q') as Hlo'. pose proof (Qlt_floor q') as Hhi'.
  rewrite inject_Z_plus in Hhi, Hhi'. change (inject_Z 1) with 1 in Hhi, Hhi'.
  assert (Hr : (py_round q <= Qfloor q + 1)%Z /\ (Qfloor q' <= py_round q')%Z).
  { unfold py_round. split.
    - destruct (Qcompare (q - inject_Z (Qfloor q)) (1 # 2));
        [destruct (Z.even (Qfloor q))| |]; lia.
    - destruct (Qcompare (q' - inject_Z (Qfloor q')) (1 # 2));
        [destruct (Z.even (Qfloor q'))| |]; lia. }
  destruct (Z.eq_dec (Qfloor q) (Qfloor q')) as [E|N]; [|lia].
  unfold py_round. rewrite <- E in *.
  destruct (Qcompare_spec (q - inject_Z (Qfloor q)) (1 # 2)) as [C|C|C];
    destruct (Qcompare_spec (q' - inject_Z (Qfloor q)) (1 # 2)) as [C'|C'|C'];
    try (destruct (Z.even (Qfloor q))); try lia; exfalso; lra.
Qed.

Lemma scaled_offset_monotone (xspan xmin xmax x x' : Q) :
  xmin < xmax -> 0 <= xspan -> x <= x' ->
  xspan * ((x - xmin) / (xmax - xmin)) <= xspan * ((x' - xmin) / (xmax - xmin)).
Proof.
  intros Hlt Hs Hx.
  assert (Hinv : 0 <= / (xmax - xmin)) by (apply Qinv_le_0_compat; lra).
  rewrite !(Qmult_comm xspan). apply Qmult_le_compat_r; [|exact Hs].
  unfold Qdiv. apply Qmult_le_compat_r; [lra|exact Hinv].
Qed.

(** X8: with [xmin < xmax] and [xspan] not negative, the day index does
    not decrease from left to right: of two points of the trend, the one
    with the larger abscissa never gets the smaller day index. *)
Theorem day_index_monotone trend ymax ymid ymin xmin xmax yspan xspan out
        i j p p' o o' :
  convert_units trend [ymax; ymid; ymin] (xmin, xmax) yspan xspan = Ok out ->
  xmin < xmax -> 0 <= xspan ->
  nth_error trend i = Some p -> nth_error trend j = Some p' ->
  nth_error out i = Some o -> nth_error out j = Some o' ->
  real p <= real p' -> (fst o <= fst o')%Z.
Proof.
  intros H Hlt Hs Hi Hj Hoi Hoj Hx.
  rewrite convert_units_eq in H. apply mapM_Forall2 in H.
  destruct (Forall2_nth_error_l _ _ _ _ _ H Hi) as (b & Hb & Hpb).
  destruct (Forall2_nth_error_l _ _ _ _ _ H Hj) as (b' & Hb' & Hpb').
  assert (b = o) by congruence. assert (b' = o') by congruence. subst b b'.
  apply convert_point_inv in Hpb. destruct Hpb as (_ & _ & ->).
  apply convert_point_inv in Hpb'. destruct Hpb' as (_ & _ & ->).
  cbn [fst].
  pose proof (py_round_monotone _ _
                (scaled_offset_monotone xspan xmin xmax _ _ Hlt Hs Hx)).
  lia.
Qed.

Lemma day_index_monotone_witness :
  exists out o o',
    convert_units [Complex 7 0; Complex 2 1] [1; 0; -1] (0, 10) 80 42 = Ok out /\
    0 < 10 /\ 0 <= 42 /\
    nth_error out 1 = Some o /\ nth_error out 0 = Some o' /\
    2 <= 7 /\ (fst o <= fst o')%Z.
Proof.
  eexists. eexists. eexists.
  split; [vm_compute; reflexivity|].
  assert (H1 : 0 < 10) by reflexivity.
  assert (H2 : 0 <= 42) by (vm_compute; discriminate).
  assert (H3 : 2 <= 7) by (vm_compute; discriminate).
  split; [exact H1|]. split; [exact H2|].
  split; [vm_compute; reflexivity|]. split; [vm_compute; reflexivity|].
  split; [exact H3|].
  exact (day_index_monotone [Complex 7 0; Complex 2 1] 1 0 (-1) 0 10 80 42 _
           1 0 (Complex 2 1) (Complex 7 0) _ _
           eq_refl H1 H2 eq_refl eq_refl eq_refl eq_refl H3).
Defined.

Lemma scaled_offset_range (n : Z) (xmin xmax x : Q) :
  xmin < xmax -> (0 <= n)%Z -> xmin <= x -> x <= xmax ->
  inject_Z 0 <= inject_Z n * ((x - xmin) / (xmax - xmin)) /\
  inject_Z n * ((x - xmin) / (xmax - xmin)) <= inject_Z n.
Proof.
  intros Hlt Hn Hlo Hhi.
  assert (Hq : 0 <= inject_Z n)
    by (change 0 with (inject_Z 0); rewrite <- Zle_Qle; exact Hn).
  change (inject_Z 0) with 0. split.
  - apply offset_nonneg; assumption.
  - assert (Ht : (x - xmin) / (xmax - xmin) <= 1)
      by (apply Qle_shift_div_r; lra).
    rewrite <- (Qmult_1_r (inject_Z n)) at 2.
    rewrite !(Qmult_comm (inject_Z n)). apply Qmult_le_compat_r; assumption.
Qed.

(** X9: with [xmin < xmax] and a whole number [n >= 0] of days as
    [xspan], a point at [xmin] gets day 1, a point at [xmax] gets day
    [1 + n], and every point between the limits gets a day from 1 to
    [1 + n]; with the 42 days of [main], the days run from 1 to 43. *)
Theorem day_index_range trend ymax ymid ymin xmin xmax yspan (n : Z) out :
  convert_units trend [ymax; ymid; ymin] (xmin, xmax) yspan (inject_Z n) = Ok out ->
  xmin < xmax -> (0 <= n)%Z ->
  Forall2 (fun point o =>
             (real point == xmin -> fst o = 1%Z) /\
             (real point == xmax -> fst o = (1 + n)%Z) /\
             (xmin <= real point -> real point <= xmax ->
              (1 <= fst o <= 1 + n)%Z))
          trend out.
Proof.
  intros H Hlt Hn. rewrite convert_units_eq in H. apply mapM_Forall2 in H.
  eapply Forall2_impl; [|exact H]. intros point o Ho.
  apply convert_point_inv in Ho. destruct Ho as (Hx & _ & ->). cbn [fst].
  split; [|split].
  - intros E.
    rewrite (py_round_comp _ (inject_Z 0)), py_round_inject_Z; [reflexivity|].
    rewrite E. change (inject_Z 0) with 0. field. exact Hx.
  - intros E.
    rewrite (py_round_comp _ (inject_Z n)), py_round_inject_Z; [reflexivity|].
    rewrite E. field. exact Hx.
  - intros Hlo Hhi.
    destruct (scaled_offset_range n xmin xmax (real point) Hlt Hn Hlo Hhi)
      as [H0 H1].
    apply py_round_monotone in H0. apply py_round_monotone in H1.
    rewrite py_round_inject_Z in H0, H1. lia.
Qed.

Lemma day_index_range_witness :
  exists out,
    convert_units [Complex 0 0; Complex 10 0; Complex 3 0] [1; 0; -1] (0, 10)
                  80 (inject_Z 42) = Ok out /\
    0 < 10 /\ (0 <= 42)%Z /\
    Forall2 (fun point o =>
               (real point == 0 -> fst o = 1%Z) /\
               (real point == 10 -> fst o = (1 + 42)%Z) /\
               (0 <= real point -> real point <= 10 ->
                (1 <= fst o <= 1 + 42)%Z))
            [Complex 0 0; Complex 10 0; Complex 3 0] out.
Proof.
  eexists. split; [vm_compute; reflexivity|].
  assert (H1 : 0 < 10) by reflexivity.
  assert (H2 : (0 <= 42)%Z) by lia.
  split; [exact H1|]. split; [exact H2|].
  exact (day_index_range [Complex 0 0; Complex 10 0; Complex 3 0]
           1 0 (-1) 0 10 80 42 _ eq_refl H1 H2).
Defined.






(** X11: with the reference lines in descending order, the outer two at
    the same distance from the middle one, and [yspan] not negative,
    every point whose ordinate lies between the outer lines gets a value
    between [- yspan] and [yspan]. *)
Theorem value_within_span trend ymax ymid ymin xmin xmax yspan xspan out :
  convert_units trend [ymax; ymid; ymin] (xmin, xmax) yspan xspan = Ok out ->
  ymin <= ymid -> ymid < ymax ->
  Qabs (ymax - ymid) == Qabs (ymid - ymin) ->
  0 <= yspan ->
  Forall2 (fun point o =>
             ymin <= imag point -> imag point <= ymax ->
             - yspan <= snd o /\ snd o <= yspan)
          trend out.
Proof.
  intros H Hbm Hmt Hsym Hs. rewrite convert_units_eq in H.
  apply mapM_Forall2 in H.
  assert (Hmb : ymid - ymin == ymax - ymid).
  { rewrite (Qabs_pos (ymax - ymid)) in Hsym by lra.
    rewrite (Qabs_pos (ymid - ymin)) in Hsym by lra. lra. }
  assert (Hscale : y_scale_of ymax ymid ymin == ymax - ymid).
  { unfold y_scale_of. rewrite <- Hsym.
    rewrite (Qabs_pos (ymax - ymid)) by lra. field. }
  eapply Forall2_impl; [|exact H]. intros point o Ho Hlo Hhi.
  apply convert_point_inv in Ho. destruct Ho as (_ & _ & ->). cbn [snd].
  rewrite Hscale.
  assert (Hu : (ymid - imag point) / (ymax - ymid) <= 1)
    by (apply Qle_shift_div_r; lra).
  assert (Hl : -1 <= (ymid - imag point) / (ymax - ymid))
    by (apply Qle_shift_div_l; lra).
  set (t := (ymid - imag point) / (ymax - ymid)) in *.
  split.
  - assert (E : - yspan == (-1) * yspan) by ring. rewrite E.
    rewrite (Qmult_comm yspan). apply Qmult_le_compat_r; assumption.
  - rewrite <- (Qmult_1_l yspan) at 2.
    rewrite (Qmult_comm yspan). apply Qmult_le_compat_r; assumption.
Qed.

Lemma value_within_span_witness :
  exists out,
    convert_units [Complex 0 (1 # 2); Complex 1 1; Complex 2 (-1)]
                  [1; 0; -1] (0, 10) 80 42 = Ok out /\
    -1 <= 0 /\ 0 < 1 /\ Qabs (1 - 0) == Qabs (0 - -1) /\ 0 <= 80 /\
    Forall2 (fun point o =>
               -1 <= imag point -> imag point <= 1 ->
               - 80 <= snd o /\ snd o <= 80)
            [Complex 0 (1 # 2); Complex 1 1; Complex 2 (-1)] out.
Proof.
  eexists. split; [vm_compute; reflexivity|].
  assert (H1 : -1 <= 0) by (vm_compute; discriminate).
  assert (H2 : 0 < 1) by reflexivity.
  assert (H3 : Qabs (1 - 0) == Qabs (0 - -1)) by reflexivity.
  assert (H4 : 0 <= 80) by (vm_compute; discriminate).
  split; [exact H1|]. split; [exact H2|]. split; [exact H3|]. split; [exact H4|].
  exact (value_within_span [Complex 0 (1 # 2); Complex 1 1; Complex 2 (-1)]
           1 0 (-1) 0 10 80 42 _ eq_refl H1 H2 H3 H4).
Defined.

(** ** The loop body of main *)

Lemma all_equal_perm (l l' : list Q) :
  Permutation l l' -> all_equal l -> all_equal l'.
Proof.
  intros Hp H x y Hx Hy.
  apply H; eapply Permutation_in; try eassumption; symmetry; exact Hp.
Qed.

Lemma all_equal_three (a b c : Q) :
  all_equal [a; b; c] <-> a == b /\ b == c.
Proof.
  split.
  - intros H. split; apply H; cbn; auto.
  - intros [E1 E2] x y Hx Hy. cbn in Hx, Hy.
    destruct Hx as [<-|[<-|[<-|[]]]]; destruct Hy as [<-|[<-|[<-|[]]]]; lra.
Qed.

Lemma extract_conforming (paths : list Path) :
  conforming paths ->
  exists s s0 rest y0 y1 y2,
    nth_error (filter is_single paths) 1 = Some [s] /\
    filter is_multi paths = [s0 :: rest] /\
    (all_equal (reduced (sorted (candidate_ys paths)))
     <-> y_scale_of y0 y1 y2 == 0) /\
    extract paths
    = (trend_converted <-
         mapM (convert_point (real (start s)) (real (end_ s) - real (start s))
                             y1 (y_scale_of y0 y1 y2) 80 42)
              (start s0 :: walk s0 rest) ;;
       unzip_rows trend_converted).
Proof.
  intros Hc.
  destruct (conforming_Ok paths Hc) as (xlim & y_lines & points & Hok).
  destruct (categorise_paths_Ok_inv _ _ _ _ Hok)
    as (s & s0 & s1 & t & _ & Hs & Ht & -> & Hy & ->).
  assert (Hlen : length y_lines = 3%nat).
  { rewrite Hy, sorted_reverse_length. apply singles_reduced. apply Hc. }
  assert (Hfix : sorted_reverse y_lines = y_lines).
  { rewrite Hy. apply sorted_reverse_fixed. apply sorted_reverse_StronglySorted. }
  destruct y_lines as [|y0 [|y1 [|y2 [|y3 l]]]]; try discriminate.
  exists s, s0, (s1 :: t), y0, y1, y2.
  split; [exact Hs|]. split; [exact Ht|]. split.
  - rewrite y_scale_of_zero_iff, <- all_equal_three. split.
    + apply all_equal_perm. rewrite Hy. apply sorted_reverse_perm.
    + apply all_equal_perm. rewrite Hy. symmetry. apply sorted_reverse_perm.
  - unfold extract. rewrite Hok. cbn [bind]. cbv zeta. rewrite Hfix.
    rewrite convert_units_eq. reflexivity.
Qed.

Lemma extract_cases (paths : list Path) :
  let singles := length (filter is_single paths) in
  let trends := length (filter is_multi paths) in
  (~ (singles = 3 \/ singles = 5)%nat /\ extract paths = Raise ValueError)
  \/ ((singles = 3 \/ singles = 5)%nat /\ trends <> 1%nat
      /\ extract paths = Raise AssertionError)
  \/ (conforming paths /\ degenerate paths
      /\ extract paths = Raise ZeroDivisionError)
  \/ (conforming paths /\ ~ degenerate paths
      /\ exists trend xs ys,
          filter is_multi paths = [trend] /\
          extract paths = Ok (xs, ys) /\
          length xs = (length trend + 1 + count_gaps trend)%nat /\
          length ys = length xs).
Proof.
  intros singles trends.
  destruct (categorise_paths_cases paths)
    as [[Hn Hv] | [(H3 & H1 & Ha) | (H3 & H1 & _)]].
  - left. split; [exact Hn|]. unfold extract. rewrite Hv. reflexivity.
  - right. left. split; [exact H3|]. split; [exact H1|].
    unfold extract. rewrite Ha. reflexivity.
  - right. right.
    assert (Hc : conforming paths) by (split; assumption).
    destruct (extract_conforming paths Hc)
      as (s & s0 & rest & y0 & y1 & y2 & Hs & Ht & Hall & Hex).
    assert (Hdeg : degenerate paths <->
                   real (end_ s) - real (start s) == 0
                   \/ y_scale_of y0 y1 y2 == 0).
    { unfold degenerate. rewrite Hall. split.
      - intros [(s' & Hs' & E)|E]; [left|right; exact E].
        rewrite Hs in Hs'. injection Hs' as <-. lra.
      - intros [E|E]; [left|right; exact E].
        exists s. split; [exact Hs|]. lra. }
    destruct (Qeq_dec (real (end_ s) - real (start s)) 0) as [Ex|Nx];
      [|destruct (Qeq_dec (y_scale_of y0 y1 y2) 0) as [Ey|Ny]].
    3: { right. split; [exact Hc|]. split; [rewrite Hdeg; tauto|].
         rewrite (mapM_pure _ (fun point =>
                    ((1 + py_round (42 * ((real point - real (start s))
                                          / (real (end_ s) - real (start s)))))%Z,
                     80 * ((y1 - imag point) / y_scale_of y0 y1 y2)))) in Hex
           by (intros point; apply convert_point_Ok; assumption).
         cbn [bind map unzip_rows] in Hex.
         match type of Hex with
         | _ = Ok (List.split ?l) =>
             exists (s0 :: rest), (fst (List.split l)), (snd (List.split l))
         end.
         split; [exact Ht|]. split; [rewrite Hex; apply f_equal, surjective_pairing|].
         rewrite length_fst_split, length_snd_split.
         split; [|reflexivity].
         cbn [length]. rewrite length_map, walk_length. lia. }
    all: left; split; [exact Hc|]; split; [rewrite Hdeg; tauto|];
      rewrite Hex; cbn [mapM]; rewrite convert_point_Raise by tauto; reflexivity.
Qed.

(** X12: a file whose number of one-segment paths is neither 3 nor 5 is
    skipped: [categorise_paths] raises the [ValueError] that [main]
    catches, and the loop goes on. *)
Theorem wrong_reference_count_skipped (paths : list Path) :
  length (filter is_single paths) <> 3%nat ->
  length (filter is_single paths) <> 5%nat ->
  try_file (extract paths) = Skipped.
Proof.
  intros N3 N5.
  destruct (extract_cases paths)
    as [[Hn ->] | [(H3 & _) | [([H3 _] & _) | ([H3 _] & _)]]];
    [reflexivity|lia|lia|lia].
Qed.

Lemma wrong_reference_count_skipped_witness :
  length (filter is_single [ref_top; gap_trend; ref_mid]) <> 3%nat /\
  length (filter is_single [ref_top; gap_trend; ref_mid]) <> 5%nat /\
  try_file (extract [ref_top; gap_trend; ref_mid]) = Skipped.
Proof.
  assert (N3 : length (filter is_single [ref_top; gap_trend; ref_mid]) <> 3%nat)
    by (cbn; lia).
  assert (N5 : length (filter is_single [ref_top; gap_trend; ref_mid]) <> 5%nat)
    by (cbn; lia).
  split; [exact N3|]. split; [exact N5|].
  exact (wrong_reference_count_skipped [ref_top; gap_trend; ref_mid] N3 N5).
Defined.

(** X13: two charts on which an exception leaves [main] and ends the
    whole run: with 3 or 5 one-segment paths but not exactly one path of
    several segments, the [AssertionError] of [categorise_paths]; with the
    supported layout but a second one-segment path whose start and end
    have the same abscissa, the [ZeroDivisionError] of [convert_units]. *)
Theorem uncaught_exceptions (paths : list Path) :
  ((length (filter is_single paths) = 3
    \/ length (filter is_single paths) = 5)%nat ->
   length (filter is_multi paths) <> 1%nat ->
   try_file (extract paths) = Propagated AssertionError) /\
  (conforming paths ->
   (exists s, nth_error (filter is_single paths) 1 = Some [s]
              /\ real (start s) == real (end_ s)) ->
   try_file (extract paths) = Propagated ZeroDivisionError).
Proof.
  split.
  - intros H3 N1.
    destruct (extract_cases paths)
      as [[Hn _] | [(_ & _ & ->) | [([_ E1] & _) | ([_ E1] & _)]]];
      [contradiction|reflexivity|contradiction|contradiction].
  - intros [H3 H1] Hx.
    destruct (extract_cases paths)
      as [[Hn _] | [(_ & N1 & _) | [(_ & _ & ->) | (_ & Hd & _)]]];
      [contradiction|contradiction|reflexivity|].
    exfalso. apply Hd. left. exact Hx.
Qed.

Lemma uncaught_exceptions_witness :
  (length (filter is_single [ref_top; ref_mid; ref_bottom]) = 3
   \/ length (filter is_single [ref_top; ref_mid; ref_bottom]) = 5)%nat /\
  length (filter is_multi [ref_top; ref_mid; ref_bottom]) <> 1%nat /\
  try_file (extract [ref_top; ref_mid; ref_bottom]) = Propagated AssertionError /\
  conforming [ref_top; [line 3 0 3 0]; ref_bottom; gap_trend] /\
  (exists s,
      nth_error (filter is_single [ref_top; [line 3 0 3 0]; ref_bottom; gap_trend]) 1
      = Some [s] /\ real (start s) == real (end_ s)) /\
  try_file (extract [ref_top; [line 3 0 3 0]; ref_bottom; gap_trend])
  = Propagated ZeroDivisionError.
Proof.
  assert (H3 : (length (filter is_single [ref_top; ref_mid; ref_bottom]) = 3
                \/ length (filter is_single [ref_top; ref_mid; ref_bottom]) = 5)%nat)
    by (left; reflexivity).
  assert (N1 : length (filter is_multi [ref_top; ref_mid; ref_bottom]) <> 1%nat)
    by (cbn; lia).
  assert (Hc : conforming [ref_top; [line 3 0 3 0]; ref_bottom; gap_trend])
    by (split; [left|]; reflexivity).
  assert (Hx : exists s,
             nth_error (filter is_single
                          [ref_top; [line 3 0 3 0]; ref_bottom; gap_trend]) 1
             = Some [s] /\ real (start s) == real (end_ s))
    by (exists (line 3 0 3 0); split; reflexivity).
  split; [exact H3|]. split; [exact N1|].
  split; [exact (proj1 (uncaught_exceptions _) H3 N1)|].
  split; [exact Hc|]. split; [exact Hx|].
  exact (proj2 (uncaught_exceptions _) Hc Hx).
Defined.

(** X14: whenever the loop body gets its two columns, the chart has the
    supported layout and is not degenerate, and there is one row for each
    trend point: [segments + 1 + gaps] day indices and as many values. *)
Theorem extracted_rows (paths : list Path) (xs : list Z) (ys : list Q) :
  extract paths = Ok (xs, ys) ->
  conforming paths /\ ~ degenerate paths /\
  exists trend,
    filter is_multi paths = [trend] /\
    length xs = (length trend + 1 + count_gaps trend)%nat /\
    length ys = length xs.
Proof.
  intros H.
  destruct (extract_cases paths)
    as [[_ E] | [(_ & _ & E) | [(_ & _ & E)
        | (Hc & Hd & trend & xs' & ys' & Ht & E & Hx & Hy)]]];
    rewrite E in H; try discriminate.
  injection H as <- <-. split; [exact Hc|]. split; [exact Hd|]. eauto.
Qed.

Lemma extracted_rows_witness :
  exists xs ys trend,
    extract gap_chart = Ok (xs, ys) /\
    conforming gap_chart /\ ~ degenerate gap_chart /\
    filter is_multi gap_chart = [trend] /\
    length xs = (length trend + 1 + count_gaps trend)%nat /\
    length ys = length xs.
Proof.
  destruct (extracted_rows gap_chart [1; 5; 9; 14]%Z
              [0 # 2; -160 # 2; -160 # 2; 0 # 2])
    as (Hc & Hd & trend & Ht & Hx & Hy); [vm_compute; reflexivity|].
  eexists. eexists. exists trend.
  split; [vm_compute; reflexivity|].
  split; [exact Hc|]. split; [exact Hd|]. split; [exact Ht|].
  split; [exact Hx|exact Hy].
Defined.

(** ** The names built by main *)

Lemma str_split_cons (sep : ascii) (s : list ascii) :
  exists w ws, str_split sep s = w :: ws.
Proof.
  induction s as [|c s (w & ws & IH)]; cbn [str_split]; [eauto|].
  destruct (Ascii.eqb c sep); [eauto|]. rewrite IH. eauto.
Qed.

Lemma str_split_join (sep : ascii) (s : list ascii) :
  str_join sep (str_split sep s) = s.
Proof.
  induction s as [|c s IH]; [reflexivity|]. cbn [str_split].
  destruct (str_split_cons sep s) as (w & ws & E). rewrite E in *.
  destruct (Ascii.eqb c sep) eqn:Ec.
  - apply Ascii.eqb_eq in Ec. subst c.
    change (str_join sep ([] :: w :: ws)) with (sep :: str_join sep (w :: ws)).
    rewrite IH. reflexivity.
  - destruct ws as [|w' ws]; cbn [str_join app] in *; rewrite IH; reflexivity.
Qed.

Lemma str_split_no_sep (sep : ascii) (s : list ascii) :
  Forall (fun w => ~ In sep w) (str_split sep s).
Proof.
  induction s as [|c s IH]; cbn [str_split].
  - constructor; [intros []|constructor].
  - destruct (Ascii.eqb c sep) eqn:Ec.
    + constructor; [intros []|exact IH].
    + destruct (str_split sep s) as [|w ws]; [repeat constructor; intros [E|[]]|].
      * subst c. rewrite Ascii.eqb_refl in Ec. discriminate.
      * inversion IH as [|? ? Hw Hws]; subst. constructor; [|exact Hws].
        intros [E|Hin]; [|contradiction].
        subst c. rewrite Ascii.eqb_refl in Ec. discriminate.
Qed.

Lemma str_join_last (sep : ascii) (init : list (list ascii)) (w : list ascii) :
  exists prefix,
    str_join sep (init ++ [w]) = prefix ++ w /\
    (prefix = [] \/ exists p, prefix = p ++ [sep]).
Proof.
  induction init as [|v init (prefix & E & Hp)].
  - exists []. split; [reflexivity|left; reflexivity].
  - exists (v ++ sep :: prefix). split.
    + change ((v :: init) ++ [w]) with (v :: (init ++ [w])).
      destruct (init ++ [w]) as [|x l] eqn:El;
        [destruct init; discriminate|].
      change (str_join sep (v :: x :: l)) with (v ++ sep :: str_join sep (x :: l)).
      rewrite E, <- app_assoc. reflexivity.
    + right. destruct Hp as [->|(p & ->)].
      * exists v. reflexivity.
      * exists (v ++ sep :: p). rewrite <- app_assoc. reflexivity.
Qed.

Lemma str_split_prefix (sep : ascii) (stem r : list ascii) :
  ~ In sep stem -> str_split sep (stem ++ sep :: r) = stem :: str_split sep r.
Proof.
  induction stem as [|c stem IH]; intros H; cbn [app str_split].
  - rewrite Ascii.eqb_refl. reflexivity.
  - destruct (Ascii.eqb c sep) eqn:Ec.
    + apply Ascii.eqb_eq in Ec. exfalso. apply H. left. exact Ec.
    + rewrite IH by (intros Hin; apply H; right; exact Hin). reflexivity.
Qed.

(** X15: the location is what follows the last slash of the input
    folder: the folder is a prefix, empty or ending with a slash,
    followed by the location, which holds no slash.  A folder given with
    a trailing slash has the empty location. *)
Theorem location_after_last_slash (input_folder : list ascii) :
  exists prefix loc,
    location input_folder = Ok loc /\
    input_folder = prefix ++ loc /\
    ~ In slash loc /\
    (prefix = [] \/ exists p, prefix = p ++ [slash]) /\
    (forall p, input_folder = p ++ [slash] -> loc = []).
Proof.
  unfold location.
  destruct (str_split_cons slash input_folder) as (w & ws & E).
  assert (Hne : w :: ws <> []) by discriminate.
  pose proof (str_split_join slash input_folder) as Hj.
  pose proof (str_split_no_sep slash input_folder) as Hn.
  rewrite E in *. rewrite (py_index_last _ [] Hne).
  rewrite (app_removelast_last [] Hne) in Hj, Hn.
  set (loc := last (w :: ws) []) in *.
  destruct (str_join_last slash (removelast (w :: ws)) loc) as (prefix & Ep & Hp).
  assert (Hloc : ~ In slash loc).
  { apply Forall_app in Hn. destruct Hn as [_ Hl]. apply Forall_inv in Hl. exact Hl. }
  exists prefix, loc. split; [reflexivity|].
  split; [rewrite <- Hj; exact Ep|]. split; [exact Hloc|]. split; [exact Hp|].
  intros p Hend. destruct loc as [|c l] eqn:El; [reflexivity|].
  exfalso. assert (Hcl : c :: l <> []) by discriminate.
  destruct (exists_last Hcl) as (l' & c' & Ecl). rewrite Ecl in *.
  rewrite <- Hj, Ep, app_assoc in Hend.
  apply app_inj_tail in Hend. destruct Hend as [_ ->].
  apply Hloc. apply in_or_app. right. left. reflexivity.
Qed.

(** X16: the graph number is what precedes the first dot of the file
    name: the name is the graph number, which holds no dot, followed by
    nothing or by a dot and the rest.  A name that begins with a dot has
    the empty graph number. *)
Theorem graph_num_before_first_dot (file : list ascii) :
  exists num rest,
    graph_num file = Ok num /\
    file = num ++ rest /\
    ~ In dot num /\
    (rest = [] \/ exists r, rest = dot :: r) /\
    (forall r, file = dot :: r -> num = []).
Proof.
  unfold graph_num.
  destruct (str_split_cons dot file) as (w & ws & E).
  pose proof (str_split_join dot file) as Hj.
  pose proof (str_split_no_sep dot file) as Hn.
  rewrite E in *. rewrite py_index_0_cons.
  apply Forall_inv in Hn.
  exists w. destruct ws as [|w' ws].
  - exists []. cbn [str_join] in Hj. rewrite app_nil_r.
    split; [reflexivity|]. split; [auto|]. split; [exact Hn|].
    split; [left; reflexivity|].
    intros r ->. destruct w as [|c w]; [reflexivity|].
    injection Hj as -> _. exfalso. apply Hn. left. reflexivity.
  - exists (dot :: str_join dot (w' :: ws)).
    change (str_join dot (w :: w' :: ws))
      with (w ++ dot :: str_join dot (w' :: ws)) in Hj.
    split; [reflexivity|]. split; [auto|]. split; [exact Hn|].
    split; [right; eauto|].
    intros r Hr. destruct w as [|c w]; [reflexivity|].
    rewrite Hr in Hj. injection Hj as -> _. exfalso. apply Hn. left. reflexivity.
Qed.

Lemma location_Ok (input_folder : list ascii) :
  exists loc, location input_folder = Ok loc.
Proof.
  unfold location.
  destruct (str_split_cons slash input_folder) as (w & ws & ->).
  rewrite (py_index_last (w :: ws) []) by discriminate. eauto.
Qed.

(** X17: the name of the output file never fails to be built, and of the
    file name it keeps only what precedes the first dot: two files that
    agree up to their first dot are written to the same place. *)
Theorem filename_keeps_stem (output_folder input_folder stem r1 r2 : list ascii) :
  ~ In dot stem ->
  exists name,
    filename output_folder input_folder (stem ++ dot :: r1) = Ok name /\
    filename output_folder input_folder (stem ++ dot :: r2) = Ok name.
Proof.
  intros H. unfold filename.
  destruct (location_Ok input_folder) as (loc & ->).
  cbn [bind]. unfold graph_num.
  rewrite !(str_split_prefix dot stem _ H), !py_index_0_cons. cbn [bind].
  eauto.
Qed.

Lemma filename_keeps_stem_witness :
  ~ In dot ["1"%char] /\
  exists name,
    filename ["o"; "u"; "t"]%char ["i"; "n"; "/"; "G"; "B"]%char
             (["1"%char] ++ dot :: ["s"; "v"; "g"]%char) = Ok name /\
    filename ["o"; "u"; "t"]%char ["i"; "n"; "/"; "G"; "B"]%char
             (["1"%char] ++ dot :: ["o"; "l"; "d"; "."; "s"; "v"; "g"]%char)
    = Ok name.
Proof.
  assert (H : ~ In dot ["1"%char]) by (intros [E|[]]; discriminate).
  split; [exact H|].
  exact (filename_keeps_stem _ _ ["1"%char] _ _ H).
Defined.

(** ** Sorting is the same for every order of the input *)

Section InsertOrder.

Variable lt : Q -> Q -> bool.
Hypothesis lt_compat :
  forall a a' b b', a == a' -> b == b' -> lt a b = lt a' b'.
Hypothesis lt_asym : forall a b, lt a b = true -> lt b a = false.
Hypothesis lt_tie : forall a b, lt a b = false -> lt b a = false -> a == b.
Hypothesis lt_le_trans :
  forall y z x, lt z y = false -> lt z x = true -> lt y x = true.

Lemma Forall2_Qeq_refl (l : list Q) : Forall2 Qeq l l.
Proof. induction l; constructor; [reflexivity|assumption]. Qed.

Lemma Forall2_Qeq_trans (l1 l2 l3 : list Q) :
  Forall2 Qeq l1 l2 -> Forall2 Qeq l2 l3 -> Forall2 Qeq l1 l3.
Proof.
  intros H. revert l3. induction H as [|a b l1 l2 Hab _ IH]; intros l3 H3.
  - exact H3.
  - inversion H3 as [|b' c l2' l3' Hbc Hrest]; subst.
    constructor; [rewrite Hab; exact Hbc|]. apply IH. exact Hrest.
Qed.

Lemma insert_by_compat (x x' : Q) (l l' : list Q) :
  x == x' -> Forall2 Qeq l l' ->
  Forall2 Qeq (insert_by lt x l) (insert_by lt x' l').
Proof.
  intros Hx H. induction H as [|y y' l l' Hy Hl IH]; cbn [insert_by].
  - constructor; [exact Hx|constructor].
  - rewrite (lt_compat y y' x x' Hy Hx). destruct (lt y' x').
    + constructor; assumption.
    + constructor; [exact Hx|]. constructor; assumption.
Qed.

Lemma insert_by_swap (x y : Q) (l : list Q) :
  Forall2 Qeq (insert_by lt y (insert_by lt x l))
              (insert_by lt x (insert_by lt y l)).
Proof.
  induction l as [|z l IH].
  - cbn [insert_by].
    destruct (lt x y) eqn:Hxy; destruct (lt y x) eqn:Hyx;
      try apply Forall2_Qeq_refl.
    + rewrite (lt_asym x y Hxy) in Hyx. discriminate.
    + pose proof (lt_tie x y Hxy Hyx) as E.
      constructor; [symmetry; exact E|]. constructor; [exact E|constructor].
  - cbn [insert_by].
    destruct (lt z x) eqn:Hzx; destruct (lt z y) eqn:Hzy; cbn [insert_by];
      rewrite ?Hzx, ?Hzy.
    + constructor; [reflexivity|exact IH].
    + rewrite ?(lt_le_trans y z x Hzy Hzx). cbn [insert_by]. rewrite ?Hzx, ?Hzy.
      apply Forall2_Qeq_refl.
    + rewrite ?(lt_le_trans x z y Hzx Hzy). cbn [insert_by]. rewrite ?Hzx, ?Hzy.
      apply Forall2_Qeq_refl.
    + destruct (lt x y) eqn:Hxy; destruct (lt y x) eqn:Hyx; cbn [insert_by];
        rewrite ?Hzx, ?Hzy; try apply Forall2_Qeq_refl.
      * rewrite (lt_asym x y Hxy) in Hyx. discriminate.
      * pose proof (lt_tie x y Hxy Hyx) as E.
        constructor; [symmetry; exact E|].
        constructor; [exact E|]. apply Forall2_Qeq_refl.
Qed.

Lemma fold_insert_compat (l l' : list Q) :
  Forall2 Qeq l l' ->
  Forall2 Qeq (fold_right (insert_by lt) [] l) (fold_right (insert_by lt) [] l').
Proof.
  induction 1 as [|x x' l l' Hx _ IH]; cbn [fold_right]; [constructor|].
  apply insert_by_compat; assumption.
Qed.

Lemma fold_insert_perm (l l' : list Q) :
  Permutation l l' ->
  Forall2 Qeq (fold_right (insert_by lt) [] l) (fold_right (insert_by lt) [] l').
Proof.
  induction 1 as [|x l l' _ IH|x y l|l1 l2 l3 _ IH1 _ IH2]; cbn [fold_right].
  - constructor.
  - apply insert_by_compat; [reflexivity|exact IH].
  - apply insert_by_swap.
  - eapply Forall2_Qeq_trans; eassumption.
Qed.

End InsertOrder.

Lemma Qltb_compat a a' b b' : a == a' -> b == b' -> Qltb a b = Qltb a' b'.
Proof.
  intros Ha Hb.
  destruct (Qltb a b) eqn:E; destruct (Qltb a' b') eqn:E'; try reflexivity;
    repeat match goal with
           | H : Qltb _ _ = true |- _ => apply Qltb_lt in H
           | H : Qltb _ _ = false |- _ => apply Qltb_ge in H
           end; exfalso; lra.
Qed.

Ltac order_facts :=
  repeat match goal with
         | H : Qltb _ _ = true |- _ => apply Qltb_lt in H
         | H : Qltb _ _ = false |- _ => apply Qltb_ge in H
         | |- Qltb _ _ = true => apply Qltb_lt
         | |- Qltb _ _ = false => apply Qltb_ge
         end; lra.

Lemma sorted_perm_Qeq (l l' : list Q) :
  Permutation l l' -> Forall2 Qeq (sorted l) (sorted l').
Proof.
  apply fold_insert_perm.
  - apply Qltb_compat.
  - intros a b H. order_facts.
  - intros a b H1 H2. order_facts.
  - intros y z x H1 H2. order_facts.
Qed.

Lemma sorted_reverse_compat (l l' : list Q) :
  Forall2 Qeq l l' -> Forall2 Qeq (sorted_reverse l) (sorted_reverse l').
Proof.
  apply fold_insert_compat.
  intros a a' b b' Ha Hb. apply Qltb_compat; assumption.
Qed.

Lemma reduced_compat (l l' : list Q) :
  Forall2 Qeq l l' -> Forall2 Qeq (reduced l) (reduced l').
Proof.
  intros H.
  destruct l as [|a [|b [|c [|d [|e [|f t]]]]]];
    destruct l' as [|a' [|b' [|c' [|d' [|e' [|f' t']]]]]];
    cbn [reduced];
    repeat match goal with
           | H : Forall2 _ (_ :: _) (_ :: _) |- _ =>
               apply Forall2_cons_iff in H; destruct H
           | H : Forall2 _ [] (_ :: _) |- _ => inversion H
           | H : Forall2 _ (_ :: _) [] |- _ => inversion H
           end;
    repeat (constructor; try assumption).
Qed.

Lemma filter_perm {A : Type} (f : A -> bool) (l l' : list A) :
  Permutation l l' -> Permutation (filter f l) (filter f l').
Proof.
  induction 1 as [|x l l' _ IH|x y l|l1 l2 l3 _ IH1 _ IH2]; cbn [filter].
  - constructor.
  - destruct (f x); [constructor|]; exact IH.
  - destruct (f x); destruct (f y); try reflexivity. apply perm_swap.
  - etransitivity; eassumption.
Qed.

Lemma candidate_ys_perm (paths paths' : list Path) :
  Permutation paths paths' ->
  Permutation (candidate_ys paths) (candidate_ys paths').
Proof.
  unfold candidate_ys.
  induction 1 as [|x l l' _ IH|x y l|l1 l2 l3 _ IH1 _ IH2]; cbn [flat_map].
  - constructor.
  - apply Permutation_app_head. exact IH.
  - rewrite !app_assoc. apply Permutation_app_tail. apply Permutation_app_comm.
  - etransitivity; eassumption.
Qed.

(** X18: the order of the paths in the file matters for the x limits
    only.  If the paths are given in another order, [categorise_paths]
    still returns, with the same trend points and with reference lines of
    the same values; the x limits are those of some one-segment path. *)
Theorem reordered_paths paths paths' xlim y_lines points :
  Permutation paths paths' ->
  categorise_paths paths = Ok (xlim, y_lines, points) ->
  exists xlim' y_lines' s,
    categorise_paths paths' = Ok (xlim', y_lines', points) /\
    Forall2 Qeq y_lines y_lines' /\
    In [s] paths /\ xlim' = (real (start s), real (end_ s)).
Proof.
  intros Hp H.
  destruct (categorise_paths_Ok_inv _ _ _ _ H)
    as (s & s0 & s1 & t & [H3 H1] & _ & Ht & _ & -> & ->).
  pose proof (filter_perm is_single _ _ Hp) as Hps.
  pose proof (filter_perm is_multi _ _ Hp) as Hpm.
  rewrite Ht in Hpm. apply Permutation_length_1_inv in Hpm.
  assert (H3' : (length (filter is_single paths') = 3
                 \/ length (filter is_single paths') = 5)%nat)
    by (rewrite <- (Permutation_length Hps); exact H3).
  destruct (categorise_paths_Ok paths' _ H3' Hpm)
    as (s' & a & rest & Hs' & E & Hok).
  injection E as <- <-.
  rewrite mid_points_walk in Hok.
  eexists. eexists. exists s'. split; [exact Hok|]. split; [|split].
  - apply sorted_reverse_compat, reduced_compat, sorted_perm_Qeq.
    apply candidate_ys_perm. exact Hp.
  - apply (Permutation_in _ (Permutation_sym Hp)).
    apply nth_error_In in Hs'. apply filter_In in Hs'. tauto.
  - reflexivity.
Qed.

Lemma reordered_paths_witness :
  exists xlim' y_lines' s,
    Permutation uneven_chart (rev uneven_chart) /\
    categorise_paths uneven_chart
    = Ok ((2, 8), [1; 0; -1], [Complex 0 0; Complex 1 1; Complex 3 0]) /\
    categorise_paths (rev uneven_chart)
    = Ok (xlim', y_lines', [Complex 0 0; Complex 1 1; Complex 3 0]) /\
    Forall2 Qeq [1; 0; -1] y_lines' /\
    In [s] uneven_chart /\ xlim' = (real (start s), real (end_ s)).
Proof.
  assert (Hp : Permutation uneven_chart (rev uneven_chart))
    by apply Permutation_rev.
  assert (H : categorise_paths uneven_chart
              = Ok ((2, 8), [1; 0; -1], [Complex 0 0; Complex 1 1; Complex 3 0]))
    by (vm_compute; reflexivity).
  destruct (reordered_paths _ _ _ _ _ Hp H) as (xlim' & y_lines' & s & R).
  exists xlim', y_lines', s. split; [exact Hp|]. split; [exact H|]. exact R.
Defined.

(** ** Touching segments *)

Lemma abs2_nonneg (z : complex) : 0 <= abs2 z.
Proof.
  unfold abs2.
  assert (H : forall q : Q, 0 <= q * q).
  { intros q. destruct (Qlt_le_dec q 0) as [Hn|Hp].
    - assert (E : q * q == (- q) * (- q)) by ring. rewrite E.
      apply Qmult_le_0_compat; lra.
    - apply Qmult_le_0_compat; assumption. }
  pose proof (H (real z)). pose proof (H (imag z)). lra.
Qed.

Lemma isclose_refl (a : complex) : np.isclose a a = true.
Proof.
  unfold np.isclose. apply orb_true_iff. left. apply Qle_bool_iff.
  assert (E : abs2 (csub a a) == 0) by (unfold abs2, csub; cbn [real imag]; ring).
  rewrite E. pose proof (abs2_nonneg a) as Hb.
  assert (Hr : 0 <= np.rtol * np.rtol * abs2 a).
  { apply Qmult_le_0_compat; [vm_compute; discriminate|exact Hb]. }
  assert (Ha : 0 < np.atol * np.atol) by reflexivity.
  lra.
Qed.

Lemma count_gaps_touching (a : Segment) (rest : list Segment) :
  (forall u v, In (u, v) (trend_pairs (a :: rest)) -> end_ u = start v) ->
  count_gaps (a :: rest) = 0%nat.
Proof.
  revert a. induction rest as [|b t IH]; intros a H; [reflexivity|].
  rewrite count_gaps_cons. rewrite trend_pairs_cons in H.
  unfold is_gap. cbn [fst snd].
  rewrite (H a b (or_introl eq_refl)), isclose_refl. cbn [negb].
  apply IH. intros u v Hin. apply H. right. exact Hin.
Qed.

(** X19: a trend drawn without lifting the pen, every segment starting
    exactly where the one before it ends, has no gap: its points are the
    starts of its segments followed by the end of the last one, one more
    than it has segments. *)
Theorem touching_trend_points paths xlim y_lines points :
  categorise_paths paths = Ok (xlim, y_lines, points) ->
  exists s0 rest,
    filter is_multi paths = [s0 :: rest] /\
    ((forall u v, In (u, v) (trend_pairs (s0 :: rest)) -> end_ u = start v) ->
     points = map start (s0 :: rest) ++ [end_ (last rest s0)] /\
     length points = (length (s0 :: rest) + 1)%nat).
Proof.
  intros H.
  destruct (categorise_paths_Ok_inv _ _ _ _ H)
    as (s & s0 & s1 & t & _ & _ & Ht & _ & _ & ->).
  exists s0, (s1 :: t). split; [exact Ht|]. intros Htouch.
  pose proof (count_gaps_touching s0 (s1 :: t) Htouch) as Hg.
  split.
  - cbn [map app]. f_equal. apply walk_gap_free. exact Hg.
  - cbn [length]. rewrite walk_length, Hg. cbn [length]. lia.
Qed.

Lemma touching_trend_points_witness :
  exists s0 rest,
    categorise_paths nogap_chart
    = Ok ((0, 10), [1; 0; -1], [Complex 0 0; Complex 1 1; Complex 3 0]) /\
    filter is_multi nogap_chart = [s0 :: rest] /\
    (forall u v, In (u, v) (trend_pairs (s0 :: rest)) -> end_ u = start v) /\
    [Complex 0 0; Complex 1 1; Complex 3 0]
    = map start (s0 :: rest) ++ [end_ (last rest s0)] /\
    length [Complex 0 0; Complex 1 1; Complex 3 0]
    = (length (s0 :: rest) + 1)%nat.
Proof.
  assert (H : categorise_paths nogap_chart
              = Ok ((0, 10), [1; 0; -1], [Complex 0 0; Complex 1 1; Complex 3 0]))
    by (vm_compute; reflexivity).
  destruct (touching_trend_points _ _ _ _ H) as (s0 & rest & Ht & Hpts).
  exists s0, rest. split; [exact H|]. split; [exact Ht|].
  assert (Htouch : forall u v, In (u, v) (trend_pairs (s0 :: rest)) ->
                               end_ u = start v).
  { injection Ht as <- <-. intros u v [E|[]]. injection E as <- <-. reflexivity. }
  split; [exact Htouch|]. exact (Hpts Htouch).
Defined.

(** ** Moving the drawing *)

Lemma Forall2_map_map {A B C : Type} (R : B -> C -> Prop)
      (g : A -> B) (h : A -> C) (l : list A) :
  (forall a, R (g a) (h a)) -> Forall2 R (map g l) (map h l).
Proof.
  intros H. induction l as [|a l IH]; cbn [map]; constructor; auto.
Qed.

Lemma y_scale_of_translate (ymax ymid ymin dy : Q) :
  y_scale_of (ymax + dy) (ymid + dy) (ymin + dy) == y_scale_of ymax ymid ymin.
Proof.
  unfold y_scale_of.
  assert (E1 : ymax + dy - (ymid + dy) == ymax - ymid) by ring.
  assert (E2 : ymid + dy - (ymin + dy) == ymid - ymin) by ring.
  rewrite E1, E2. reflexivity.
Qed.

(** X20: the conversion does not depend on where the drawing lies: when
    the points, the reference lines and the x limits are all moved by the
    same [(dx, dy)], [convert_units] still returns, with the same day
    indices and equal values. *)
Theorem convert_units_translate trend ymax ymid ymin xmin xmax yspan xspan
        dx dy out :
  convert_units trend [ymax; ymid; ymin] (xmin, xmax) yspan xspan = Ok out ->
  exists out',
    convert_units (map (translate dx dy) trend)
                  [ymax + dy; ymid + dy; ymin + dy] (xmin + dx, xmax + dx)
                  yspan xspan = Ok out' /\
    Forall2 (fun o o' => fst o = fst o' /\ snd o == snd o') out out'.
Proof.
  intros H. rewrite convert_units_eq in H. rewrite convert_units_eq.
  destruct trend as [|point rest].
  - injection H as <-. exists []. split; [reflexivity|constructor].
  - assert (Hscales : ~ xmax - xmin == 0 /\ ~ y_scale_of ymax ymid ymin == 0).
    { apply mapM_Forall2 in H. inversion H as [|? o ? ? Ho _]; subst.
      apply convert_point_inv in Ho. tauto. }
    destruct Hscales as [Hx Hy].
    remember (point :: rest) as trend eqn:Etrend. clear Etrend.
    assert (Hx' : ~ xmax + dx - (xmin + dx) == 0) by (intros E; apply Hx; lra).
    assert (Hy' : ~ y_scale_of (ymax + dy) (ymid + dy) (ymin + dy) == 0)
      by (rewrite y_scale_of_translate; exact Hy).
    pose (g := fun p : complex =>
               ((1 + py_round (xspan * ((real p - xmin) / (xmax - xmin))))%Z,
                yspan * ((ymid - imag p) / y_scale_of ymax ymid ymin))).
    rewrite (mapM_pure _ g) in H
      by (intros p; apply convert_point_Ok; assumption).
    assert (Hout : out = map g trend) by congruence. subst out.
    eexists. split.
    + apply mapM_pure. intros p. apply convert_point_Ok; assumption.
    + rewrite map_map. apply Forall2_map_map. intros p.
      unfold g. cbn [fst snd translate real imag]. split.
      * f_equal. apply py_round_comp.
        field; repeat split; intros E; apply Hx; lra.
      * rewrite y_scale_of_translate. field. exact Hy.
Qed.

Lemma convert_units_translate_witness :
  exists out out',
    convert_units [Complex 5 (1 # 2); Complex 7 (-1)] [1; 0; -1] (0, 10) 80 42
    = Ok out /\
    convert_units (map (translate 100 (-30)) [Complex 5 (1 # 2); Complex 7 (-1)])
                  [1 + -30; 0 + -30; -1 + -30] (0 + 100, 10 + 100) 80 42
    = Ok out' /\
    Forall2 (fun o o' => fst o = fst o' /\ snd o == snd o') out out'.
Proof.
  eexists.
  destruct (convert_units_translate [Complex 5 (1 # 2); Complex 7 (-1)]
              1 0 (-1) 0 10 80 42 100 (-30) _ eq_refl) as (out' & H1 & H2).
  exists out'. split; [reflexivity|]. split; [exact H1|exact H2].
Defined.

(** ** convert_units on doubles *)

Section F64Loop.

Variables xmin x_scale ymid y_scale yspan xspan : float.

Let image := F64.convert_point xmin x_scale ymid y_scale yspan xspan.

Lemma F64_convert_loop_mapM trend acc :
  F64.convert_loop xmin x_scale ymid y_scale yspan xspan trend acc
  = (out <- mapM image trend ;; Ok (acc ++ out)).
Proof.
  revert acc. induction trend as [|point rest IH]; intros acc;
    cbn [F64.convert_loop mapM bind].
  - rewrite app_nil_r. reflexivity.
  - fold image. destruct (image point) as [o|e]; cbn [bind]; [|reflexivity].
    rewrite IH.
    destruct (mapM image rest) as [os|e]; cbn [bind]; [|reflexivity].
    rewrite <- app_assoc. reflexivity.
Qed.

(** The three ways a point fails, in the order of the source, and what it
    is mapped to otherwise. *)
Lemma F64_convert_point_cases point :
  let product := (xspan * ((F64.real point - xmin) / x_scale))%float in
  ((x_scale =? 0)%float = true /\ image point = Raise ZeroDivisionError)
  \/ ((x_scale =? 0)%float = false /\
      exists e, F64.py_round product = Raise e /\ image point = Raise e)
  \/ ((x_scale =? 0)%float = false /\ (y_scale =? 0)%float = true /\
      (exists r, F64.py_round product = Ok r) /\
      image point = Raise ZeroDivisionError)
  \/ ((x_scale =? 0)%float = false /\ (y_scale =? 0)%float = false /\
      exists r, F64.py_round product = Ok r /\
                image point
                = Ok ((1 + r)%Z,
                      (yspan * ((ymid - F64.imag point) / y_scale))%float)).
Proof.
  intros product. unfold image, F64.convert_point, F64.py_div.
  destruct (x_scale =? 0)%float eqn:Ex; [left; auto|right].
  cbn [bind]. fold product.
  destruct (F64.py_round product) as [r|e] eqn:Er; cbn [bind];
    [right|left; eauto].
  destruct (y_scale =? 0)%float eqn:Ey; cbn [bind]; [left|right]; eauto 6.
Qed.

Lemma F64_py_round_error (x : float) (e : exn) :
  F64.py_round x = Raise e -> e = ValueError \/ e = OverflowError.
Proof.
  unfold F64.py_round. destruct (Prim2SF x); intros H; try discriminate;
    injection H as <-; auto.
Qed.

End F64Loop.

Lemma F64_convert_units_eq trend ymax ymid ymin xmin xmax yspan xspan :
  F64.convert_units trend [ymax; ymid; ymin] (xmin, xmax) yspan xspan
  = mapM (F64.convert_point xmin (xmax - xmin) ymid
                            (F64.y_scale_of ymax ymid ymin) yspan xspan) trend.
Proof.
  unfold F64.convert_units. cbn [F64.unpack3 bind].
  rewrite F64_convert_loop_mapM.
  destruct (mapM _ trend); reflexivity.
Qed.

Lemma Prim2SF_sub_diag (x : float) :
  F64.finite x = true -> Prim2SF (x - x) = S754_zero false.
Proof.
  unfold F64.finite. rewrite sub_spec.
  destruct (Prim2SF x) as [s|s| |s m e]; try discriminate; intros _.
  - destruct s; reflexivity.
  - unfold SF64sub, SFsub. cbv zeta. rewrite Z.sub_diag. reflexivity.
Qed.

Lemma F64_sub_diag (x : float) :
  F64.finite x = true -> (x - x =? 0)%float = true.
Proof.
  intros H. rewrite eqb_spec, (Prim2SF_sub_diag x H). reflexivity.
Qed.

Lemma F64_y_scale_of_diag (y : float) :
  F64.finite y = true -> (F64.y_scale_of y y y =? 0)%float = true.
Proof.
  intros H. unfold F64.y_scale_of.
  rewrite eqb_spec, div_spec, add_spec, abs_spec, (Prim2SF_sub_diag y H).
  reflexivity.
Qed.

(** C2 (as amended): on doubles, whenever [convert_units] returns, every
    point [(x, y)] is mapped to the day index
    [1 + round (x_span * ((x - x_min) / (x_max - x_min)))], the quotient
    taken first, and to the value [y_span * ((y_mid - y) / y_scale)] with
    [y_scale = (|y_top - y_mid| + |y_mid - y_bottom|) / 2], each operation
    rounded to a double.  With reference lines 1, 0, -1, limits (0, 10),
    [x_span = 42] and [y_span = 80], abscissa 5 gives day 22 and ordinate
    1/2 gives -40. *)
Theorem convert_units_binary64_formula :
  (forall trend y_top y_mid y_bottom x_min x_max y_span x_span out,
      F64.convert_units trend [y_top; y_mid; y_bottom] (x_min, x_max)
                        y_span x_span = Ok out ->
      Forall2 (fun point o =>
                 (exists r,
                     F64.py_round
                       (x_span * ((F64.real point - x_min) / (x_max - x_min)))%float
                     = Ok r /\ fst o = (1 + r)%Z) /\
                 snd o = (y_span * ((y_mid - F64.imag point)
                                    / ((abs (y_top - y_mid)
                                        + abs (y_mid - y_bottom)) / 2)))%float)
              trend out) /\
  (forall y,
      F64.convert_units [F64.Complex 5 y] [1; 0; -1]%float (0, 10)%float 80 42
      = Ok [(22%Z, (80 * ((0 - y) / 1))%float)]) /\
  (forall x d v,
      F64.convert_units [F64.Complex x 0.5] [1; 0; -1]%float (0, 10)%float 80 42
      = Ok [(d, v)] -> v = (-40)%float).
Proof.
  split; [|split].
  - intros trend y_top y_mid y_bottom x_min x_max y_span x_span out H.
    rewrite F64_convert_units_eq in H. apply mapM_Forall2 in H.
    eapply Forall2_impl; [|exact H]. intros point o Ho. cbv beta in Ho.
    pose proof (F64_convert_point_cases x_min (x_max - x_min) y_mid
                (F64.y_scale_of y_top y_mid y_bottom) y_span x_span point) as Hcases;
      cbv zeta in Hcases; destruct Hcases
      as [(_ & E) | [(_ & e & _ & E) | [(_ & _ & _ & E)
          | (_ & _ & r & Hr & E)]]];
      rewrite E in Ho; try discriminate.
    injection Ho as <-. cbn [fst snd]. split; [eauto|reflexivity].
  - intros y. reflexivity.
  - intros x d v H. rewrite F64_convert_units_eq in H. cbn [mapM] in H.
    pose proof (F64_convert_point_cases 0 (10 - 0) 0
                (F64.y_scale_of 1 0 (-1)) 80 42 (F64.Complex x 0.5)) as Hcases;
      cbv zeta in Hcases; destruct Hcases
      as [(_ & E) | [(_ & e & _ & E) | [(_ & _ & _ & E)
          | (_ & _ & r & Hr & E)]]];
      rewrite E in H; try discriminate.
    cbn [bind F64.imag] in H. injection H as _ <-. reflexivity.
Qed.

Lemma convert_units_binary64_formula_witness :
  exists out,
    F64.convert_units [F64.Complex 17 0; F64.Complex 5 0.5] [1; 0; -1]%float
                      (0, 28)%float 80 42 = Ok out /\
    Forall2 (fun point o =>
               (exists r,
                   F64.py_round (42 * ((F64.real point - 0) / (28 - 0)))%float
                   = Ok r /\ fst o = (1 + r)%Z) /\
               snd o = (80 * ((0 - F64.imag point)
                              / ((abs (1 - 0) + abs (0 - -1)) / 2)))%float)
            [F64.Complex 17 0; F64.Complex 5 0.5] out.
Proof.
  eexists. split; [vm_compute; reflexivity|].
  apply (proj1 convert_units_binary64_formula
           [F64.Complex 17 0; F64.Complex 5 0.5] 1 0 (-1) 0 28 80 42)%float.
  vm_compute. reflexivity.
Defined.

(** C2, as stated, fails: with limits (0, 28) and [x_span = 42] the point
    of abscissa 17 is converted to day 26, because [17 / 28] is rounded
    before the product: [42 * (17 / 28)] is just below 25.5.  The formula
    of the claim, [1 + round (42 * (17 - 0) / (28 - 0))], gives day 27
    both on doubles, where [42 * 17 / 28] is exactly 25.5, and in exact
    arithmetic. *)
Lemma product_first_counterexample :
  F64.convert_units [F64.Complex 17 0] [1; 0; -1]%float (0, 28)%float 80 42
  = Ok [(26%Z, 0%float)] /\
  F64.day_index_spec 42 0 28 17 = Ok 27%Z /\
  day_index_spec 42 0 28 17 = 27%Z.
Proof.
  split; [vm_compute; reflexivity|]. split; vm_compute; reflexivity.
Qed.

(** C10 (as amended): [convert_units] divides by [xmax - xmin] and by the
    y scale without a guard.  On doubles, with at least one point: equal
    finite limits raise [ZeroDivisionError] at the first point; three
    equal finite reference lines never let it return, and raise
    [ZeroDivisionError] at the first point once its day index is
    computed; and a [ZeroDivisionError] is raised only when the computed
    [xmax - xmin] or the computed y scale is zero. *)
Theorem zero_division_binary64 :
  (forall point rest ymax ymid ymin x yspan xspan,
      F64.finite x = true ->
      F64.convert_units (point :: rest) [ymax; ymid; ymin] (x, x) yspan xspan
      = Raise ZeroDivisionError) /\
  (forall point rest y xmin xmax yspan xspan,
      F64.finite y = true ->
      (forall out,
          F64.convert_units (point :: rest) [y; y; y] (xmin, xmax) yspan xspan
          <> Ok out) /\
      (forall r,
          F64.py_round (xspan * ((F64.real point - xmin) / (xmax - xmin)))%float
          = Ok r ->
          F64.convert_units (point :: rest) [y; y; y] (xmin, xmax) yspan xspan
          = Raise ZeroDivisionError)) /\
  (forall trend ymax ymid ymin xmin xmax yspan xspan,
      F64.convert_units trend [ymax; ymid; ymin] (xmin, xmax) yspan xspan
      = Raise ZeroDivisionError ->
      trend <> [] /\
      ((xmax - xmin =? 0)%float = true
       \/ (F64.y_scale_of ymax ymid ymin =? 0)%float = true)).
Proof.
  split; [|split].
  - intros point rest ymax ymid ymin x yspan xspan Hx.
    rewrite F64_convert_units_eq. cbn [mapM].
    pose proof (F64_convert_point_cases x (x - x) ymid
                (F64.y_scale_of ymax ymid ymin) yspan xspan point) as Hcases;
      cbv zeta in Hcases; destruct Hcases
      as [(_ & ->) | [(E & _) | [(E & _) | (E & _)]]];
      [reflexivity| | |]; rewrite (F64_sub_diag x Hx) in E; discriminate.
  - intros point rest y xmin xmax yspan xspan Hy.
    pose proof (F64_y_scale_of_diag y Hy) as Hs.
    rewrite F64_convert_units_eq. cbn [mapM].
    pose proof (F64_convert_point_cases xmin (xmax - xmin) y
                (F64.y_scale_of y y y) yspan xspan point) as Hcases;
      cbv zeta in Hcases; destruct Hcases
      as [(_ & ->) | [(_ & e & He & ->) | [(_ & _ & _ & ->) | (_ & E & _)]]];
      cbn [bind].
    + split; [discriminate|reflexivity].
    + split; [discriminate|]. intros r Hr. congruence.
    + split; [discriminate|reflexivity].
    + rewrite Hs in E. discriminate.
  - intros trend ymax ymid ymin xmin xmax yspan xspan H.
    rewrite F64_convert_units_eq in H.
    split; [intros ->; discriminate|].
    induction trend as [|point rest IH]; [discriminate|].
    cbn [mapM] in H.
    pose proof (F64_convert_point_cases xmin (xmax - xmin) ymid
                (F64.y_scale_of ymax ymid ymin) yspan xspan point) as Hcases;
      cbv zeta in Hcases; destruct Hcases
      as [(Ex & _) | [(_ & e & He & E) | [(_ & Ey & _) | (_ & _ & r & _ & E)]]];
      [left; exact Ex| |right; exact Ey|].
    + rewrite E in H. cbn [bind] in H. injection H as ->.
      destruct (F64_py_round_error _ _ He); discriminate.
    + rewrite E in H. cbn [bind] in H. apply IH.
      destruct (mapM _ rest); [discriminate|exact H].
Qed.

Lemma zero_division_binary64_witness :
  F64.finite 3 = true /\
  F64.convert_units [F64.Complex 5 0] [1; 0; -1]%float (3, 3)%float 80 42
  = Raise ZeroDivisionError.
Proof.
  assert (H : F64.finite 3 = true) by reflexivity.
  split; [exact H|].
  exact (proj1 zero_division_binary64 (F64.Complex 5 0) [] 1 0 (-1) 3 80 42 H)%float.
Defined.

(** C10, as stated, fails: the limits 0 and 10 differ and the reference
    lines [2^-1074], 0, 0 are not all equal, yet the y scale,
    [(2^-1074 + 0) / 2], is rounded to 0 and the first point raises
    [ZeroDivisionError]. *)
Lemma tiny_lines_counterexample :
  F64.convert_units [F64.Complex 5 0] [0x1p-1074; 0; 0]%float (0, 10)%float 80 42
  = Raise ZeroDivisionError /\
  (10 =? 0)%float = false /\
  (0x1p-1074 =? 0)%float = false /\
  F64.finite 0x1p-1074 = true /\
  (F64.y_scale_of 0x1p-1074 0 0 =? 0)%float = true.
Proof.
  repeat split; vm_compute; reflexivity.
Qed.
